(** * Schema graph of [src/models.py]: entity-relationship diagram builder

    The module declares six SQLAlchemy models and, when run as a script,
    introspects [db.metadata], builds a [graphviz.Digraph] per layout
    configuration with [build_graph], renders each one, and moves the
    [spaced] rendering to [diagram.png].

    The embedding follows the script:
    - the declared schema is plain data ([MetaData], [Table], [Column],
      [ForeignKey]);
    - [Digraph] objects are mutable, so they live in an object store and
      [build_graph] returns a reference;
    - the script body runs in a state-and-exception monad over a [World]
      (object store, file system, log of the calls made to the outside). *)

From stdpp Require Import base strings list gmap.

(** ** Schema metadata (the part of SQLAlchemy [build_graph] reads) *)

(** [ForeignKey('user.id')]: [fk.column.table.name] is ["user"],
    [fk.column.name] is ["id"]. *)
Record ForeignKey := mkForeignKey {
  fk_table_name : string;
  fk_column_name : string
}.

(** [Column]: [col.name], [col.primary_key], [col.foreign_keys]. *)
Record Column := mkColumn {
  col_name : string;
  primary_key : bool;
  foreign_keys : list ForeignKey
}.

(** [Table]: [table.columns], in declaration order. *)
Record Table := mkTable {
  columns : list Column
}.

(** [MetaData]: [metadata.tables] is an insertion-ordered dict from table
    name to table; [list(metadata.tables.items())] is its list of pairs. *)
Record MetaData := mkMetaData {
  tables : list (string * Table)
}.

(** ** graphviz [Digraph] *)

(** One entry of [Digraph.body]. *)
Inductive Stmt :=
| AttrStmt (kw : string) (attrs : list (string * string))
| NodeStmt (name : string) (label : string)
| EdgeStmt (tail_name head_name : string).

Record Digraph := mkDigraph {
  g_name : string;
  g_format : string;
  body : list Stmt
}.

Definition append_body (s : Stmt) (d : Digraph) : Digraph :=
  mkDigraph (g_name d) (g_format d) (body d ++ [s]).

(** Node statements [(name, label)] of a body, in emission order. *)
Fixpoint nodes_of (b : list Stmt) : list (string * string) :=
  match b with
  | [] => []
  | NodeStmt n l :: b' => (n, l) :: nodes_of b'
  | _ :: b' => nodes_of b'
  end.

(** Edge statements [(tail, head)] of a body, in emission order. *)
Fixpoint edges_of (b : list Stmt) : list (string * string) :=
  match b with
  | [] => []
  | EdgeStmt s t :: b' => (s, t) :: edges_of b'
  | _ :: b' => edges_of b'
  end.

(** ** The world the script runs in *)

(** Exceptions the library calls of the script raise; each class derives
    from Python's [Exception].  [ReferenceError] stands for the use of a
    reference that names no object; references only come from
    [Digraph_new], so no run of the script raises it. *)
Inductive Exn :=
| OSError
| FileNotFoundError
| ExecutableNotFound
| CalledProcessError
| SQLAlchemyError
| ReferenceError.

(** What a path of the working directory holds. *)
Inductive Content :=
| DotSource (d : Digraph)
| Image (d : Digraph)
| SqliteDb (table_names : list string)
| Blob (raw : string).

(** Calls that reach outside the interpreter, logged when they are made. *)
Inductive Event :=
| EvRemove (path : string)
| EvCreateAll (path : string)
| EvRender (filename : string)
| EvReplace (src dst : string).

Record World := mkWorld {
  objs : gmap nat Digraph;
  fs : gmap string Content;
  trace : list Event
}.

Definition set_objs (f : gmap nat Digraph → gmap nat Digraph) (w : World) : World :=
  mkWorld (f (objs w)) (fs w) (trace w).
Definition set_fs (f : gmap string Content → gmap string Content) (w : World) : World :=
  mkWorld (objs w) (f (fs w)) (trace w).
Definition add_event (e : Event) (w : World) : World :=
  mkWorld (objs w) (fs w) (trace w ++ [e]).

(** ** State and exception monad *)

Inductive Res (A : Type) :=
| Ok (a : A)
| Raise (e : Exn).
Arguments Ok {A} a.
Arguments Raise {A} e.

Definition M (A : Type) : Type := World → Res A * World.

Definition ret {A} (a : A) : M A := fun w => (Ok a, w).
Definition raise {A} (e : Exn) : M A := fun w => (Raise e, w).
Definition bind {A B} (m : M A) (k : A → M B) : M B :=
  fun w => match m w with
           | (Ok a, w') => k a w'
           | (Raise e, w') => (Raise e, w')
           end.
Definition modify (f : World → World) : M unit := fun w => (Ok tt, f w).
Definition gets {A} (f : World → A) : M A := fun w => (Ok (f w), w).

Global Instance M_ret : MRet M := @ret.
Global Instance M_bind : MBind M := fun A B k m => bind m k.

(** [for x in l: f x] *)
Fixpoint for_ {A} (l : list A) (f : A → M unit) : M unit :=
  match l with
  | [] => ret tt
  | x :: l' => f x ;; for_ l' f
  end.

(** [if b: m] *)
Definition when_ (b : bool) (m : M unit) : M unit :=
  if b then m else ret tt.

(** [try: m  except Exception: h].  Every [Exn] is an [Exception], so the
    handler takes them all. *)
Definition try_except {A} (m : M A) (h : Exn → M A) : M A :=
  fun w => match m w with
           | (Ok a, w') => (Ok a, w')
           | (Raise e, w') => h e w'
           end.

(** [try: m  finally: fin].  The outcome of [m] is kept unless [fin]
    itself raises. *)
Definition try_finally {A} (m : M A) (fin : M unit) : M A :=
  fun w => match m w with
           | (r, w') =>
               match fin w' with
               | (Ok _, w'') => (r, w'')
               | (Raise e, w'') => (Raise e, w'')
               end
           end.

(** ** [Digraph] methods *)

(** [Digraph(name=name, format=fmt)]: a new object with an empty body. *)
Definition Digraph_new (name fmt : string) : M nat :=
  fun w => let r := fresh (dom (objs w)) in
           (Ok r, set_objs <[r := mkDigraph name fmt []]> w).

(** [g.attr(kw, **attrs)] *)
Definition attr (g : nat) (kw : string) (attrs : list (string * string)) : M unit :=
  modify (set_objs (alter (append_body (AttrStmt kw attrs)) g)).

(** [g.node(name, label=label)] *)
Definition node (g : nat) (name label : string) : M unit :=
  modify (set_objs (alter (append_body (NodeStmt name label)) g)).

(** [g.edge(tail_name, head_name)] *)
Definition edge (g : nat) (tail_name head_name : string) : M unit :=
  modify (set_objs (alter (append_body (EdgeStmt tail_name head_name)) g)).

(** ** [build_graph] (lines 122-141) *)

(** Lines 128-133: the [fields] list of one table. *)
Definition build_fields (table : Table) : list string :=
  fold_left
    (fun fields col =>
       let colname := col_name col in
       let colname := if primary_key col then colname +:+ " (PK)" else colname in
       fields ++ [colname +:+ "\l"])
    (columns table) [].

(** Line 134. *)
Definition build_label (tname : string) (table : Table) : string :=
  "{" +:+ tname +:+ "|" +:+ String.concat "" (build_fields table) +:+ "}".

(** [nodesep] and [ranksep] are strings at every call site, so the
    [str(...)] of line 124 leaves them as they are. *)
Definition build_graph (metadata : MetaData) (name : string)
    (nodesep ranksep rankdir : string) : M nat :=
  g ← Digraph_new name "png";
  attr g "graph" [("nodesep", nodesep); ("ranksep", ranksep); ("rankdir", rankdir)];;
  attr g "node" [("shape", "record")];;
  let tables := tables metadata in
  for_ tables (fun '(tname, table) =>
    let label := build_label tname table in
    node g tname label);;
  for_ tables (fun '(tname, table) =>
    for_ (columns table) (fun col =>
      for_ (foreign_keys col) (fun fk =>
        let target := fk_table_name fk in
        edge g tname target)));;
  ret g.

(** ** The declared schema (lines 11-115) *)

Definition plain (n : string) : Column := mkColumn n false [].
Definition pk (n : string) : Column := mkColumn n true [].
Definition fk (n t c : string) : Column := mkColumn n false [mkForeignKey t c].

Definition User : Table := mkTable
  [pk "id"; plain "username"; plain "email"; plain "password";
   plain "full_name"; plain "bio"; plain "website"; plain "is_private";
   plain "is_verified"; plain "created_at"].

Definition Post : Table := mkTable
  [pk "id"; fk "user_id" "user" "id"; plain "caption"; plain "location";
   plain "created_at"; plain "is_archived"].

Definition Media : Table := mkTable
  [pk "id"; fk "post_id" "post" "id"; plain "media_type"; plain "url";
   plain "order"].

Definition Comment : Table := mkTable
  [pk "id"; fk "post_id" "post" "id"; fk "user_id" "user" "id";
   plain "content"; plain "created_at"; fk "parent_id" "comment" "id"].

Definition Like : Table := mkTable
  [pk "id"; fk "user_id" "user" "id"; fk "post_id" "post" "id";
   plain "created_at"].

Definition Follow : Table := mkTable
  [pk "id"; fk "follower_id" "user" "id"; fk "followed_id" "user" "id";
   plain "created_at"; plain "is_accepted"].

(** [db.metadata]: tables in the order the classes are declared. *)
Definition declared_metadata : MetaData := mkMetaData
  [("user", User); ("post", Post); ("media", Media);
   ("comment", Comment); ("like", Like); ("follow", Follow)].

(** ** Calls to the outside: [os], SQLAlchemy engine, [Digraph.render] *)

(** The working directory is a finite map from path to content; there are
    no links and no other process.  Whether a call fails is up to the
    environment, given as a fault plan; a call that fails leaves the files
    as the stages before the failure left them. *)

(** Stages of [Digraph.render(filename, cleanup=True)]: write the DOT
    source to [filename], run the layout program, which writes
    [filename.format], then remove the source. *)
Inductive RenderStage := StSave | StRun | StCleanup.

(** The places of the script (lines 143-162) where a call can raise. *)
Inductive Point :=
| AtRemoveStale
| AtCreateEngine
| AtCreateAll
| AtRender (filename : string) (stage : RenderStage)
| AtReplace
| AtRemoveFinal.

(** What the environment does at each place: [Some e] makes the call
    raise [e]. *)
Definition Faults := Point → option Exn.

Definition no_faults : Faults := fun _ => None.

Definition fault (F : Faults) (p : Point) : M unit :=
  match F p with
  | Some e => raise e
  | None => ret tt
  end.

(** [os.path.exists(path)] *)
Definition os_path_exists (path : string) : M bool :=
  gets (fun w => bool_decide (is_Some (fs w !! path))).

(** [os.remove(path)] *)
Definition os_remove (F : Faults) (p : Point) (path : string) : M unit :=
  modify (add_event (EvRemove path));;
  fault F p;;
  present ← os_path_exists path;
  if present : bool then modify (set_fs (delete path)) else raise FileNotFoundError.

(** [os.replace(src, dst)]: rename [src] to [dst], overwriting [dst]. *)
Definition os_replace (F : Faults) (p : Point) (src dst : string) : M unit :=
  modify (add_event (EvReplace src dst));;
  fault F p;;
  c ← gets (fun w => fs w !! src);
  match c with
  | Some c => modify (set_fs (fun m => <[dst := c]> (delete src m)))
  | None => raise FileNotFoundError
  end.

Record Engine := mkEngine { url : string }.

(** The file a [sqlite:///path] URL names. *)
Definition sqlite_path (u : string) : string :=
  String.substring 10 (String.length u - 10) u.

(** [create_engine(url)]: no connection is opened yet. *)
Definition create_engine (F : Faults) (u : string) : M Engine :=
  fault F AtCreateEngine;;
  ret (mkEngine u).

(** [metadata.create_all(engine)]: connects, which creates the database
    file, and creates the declared tables in it. *)
Definition create_all (F : Faults) (metadata : MetaData) (engine : Engine) : M unit :=
  let path := sqlite_path (url engine) in
  modify (add_event (EvCreateAll path));;
  fault F AtCreateAll;;
  modify (set_fs <[path := SqliteDb (map fst (tables metadata))]>).

Definition deref (g : nat) : M Digraph :=
  fun w => match objs w !! g with
           | Some d => (Ok d, w)
           | None => (Raise ReferenceError, w)
           end.

(** [g.render(filename, cleanup=True)]; returns the path of the image. *)
Definition render (F : Faults) (g : nat) (filename : string) : M string :=
  modify (add_event (EvRender filename));;
  d ← deref g;
  fault F (AtRender filename StSave);;
  modify (set_fs <[filename := DotSource d]>);;
  fault F (AtRender filename StRun);;
  let rendered := filename +:+ "." +:+ g_format d in
  modify (set_fs <[rendered := Image d]>);;
  os_remove F (AtRender filename StCleanup) filename;;
  ret rendered.

(** ** The script (lines 143-162) *)

Definition tmp_db : string := "tmp_instagram.db".

Definition script_body (F : Faults) (db_metadata : MetaData) : M unit :=
  present ← os_path_exists tmp_db;
  when_ present (os_remove F AtRemoveStale tmp_db);;
  engine ← create_engine F ("sqlite:///" +:+ tmp_db);
  create_all F db_metadata engine;;
  let metadata := db_metadata in
  g1 ← build_graph metadata "compact" "0.25" "0.5" "TB";
  render F g1 "diagram_compact";;
  g2 ← build_graph metadata "spaced" "1.0" "1.2" "TB";
  render F g2 "diagram_spaced";;
  g3 ← build_graph metadata "symmetric" "1.2" "1.0" "LR";
  render F g3 "diagram_symmetric";;
  os_replace F AtReplace "diagram_spaced.png" "diagram.png".

Definition script_cleanup (F : Faults) : M unit :=
  try_except
    (present ← os_path_exists tmp_db;
     when_ present (os_remove F AtRemoveFinal tmp_db))
    (fun _ => ret tt).

Definition main (F : Faults) (db_metadata : MetaData) : M unit :=
  try_finally (script_body F db_metadata) (script_cleanup F).

Definition empty_world : World := mkWorld ∅ ∅ [].

(** ** Views used to state the properties *)

(** The graph a run of [build_graph] leaves in the object store. *)
Definition built (metadata : MetaData) (name nodesep ranksep rankdir : string)
    (w : World) : option Digraph :=
  match build_graph metadata name nodesep ranksep rankdir w with
  | (Ok g, w') => objs w' !! g
  | (Raise _, _) => None
  end.

(** Names of the declared tables, in declaration order. *)
Definition table_names (metadata : MetaData) : list string :=
  map fst (tables metadata).

(** The foreign-key references of one table, as (source, target) pairs. *)
Definition table_references (tname : string) (table : Table) : list (string * string) :=
  flat_map (fun col => map (fun fk => (tname, fk_table_name fk)) (foreign_keys col))
           (columns table).

(** All foreign-key references of the schema, in declaration order. *)
Definition fk_references (metadata : MetaData) : list (string * string) :=
  flat_map (fun '(tname, table) => table_references tname table) (tables metadata).

(** Number of foreign-key references, counted column by column. *)
Definition fk_count (metadata : MetaData) : nat :=
  sum_list (map (fun '(_, table) =>
                   sum_list (map (fun col => length (foreign_keys col)) (columns table)))
                (tables metadata)).

(** Every foreign key names a declared table. *)
Definition references_declared (metadata : MetaData) : Prop :=
  Forall (fun '(_, table) =>
            Forall (fun col =>
                      Forall (fun fk => fk_table_name fk ∈ table_names metadata)
                             (foreign_keys col))
                   (columns table))
         (tables metadata).

(** ** The object store under [build_graph] *)

Definition add_stmts (ss : list Stmt) (d : Digraph) : Digraph :=
  mkDigraph (g_name d) (g_format d) (body d ++ ss).

(** The world [w0] with object [g] (re)bound to [d]. *)
Definition holding (w0 : World) (g : nat) (d : Digraph) : World :=
  set_objs <[g := d]> w0.

(** Statements the two table loops of [build_graph] append. *)
Definition node_stmts (metadata : MetaData) : list Stmt :=
  flat_map (fun '(tname, table) => [NodeStmt tname (build_label tname table)])
           (tables metadata).

Definition edge_stmts (metadata : MetaData) : list Stmt :=
  flat_map (fun '(tname, table) =>
              flat_map (fun col =>
                          flat_map (fun fk => [EdgeStmt tname (fk_table_name fk)])
                                   (foreign_keys col))
                       (columns table))
           (tables metadata).

Definition graph_attr (nodesep ranksep rankdir : string) : Stmt :=
  AttrStmt "graph" [("nodesep", nodesep); ("ranksep", ranksep); ("rankdir", rankdir)].


(** [os.replace] calls in a log, in order. *)
Fixpoint replaces_of (t : list Event) : list (string * string) :=
  match t with
  | [] => []
  | EvReplace src dst :: t' => (src, dst) :: replaces_of t'
  | _ :: t' => replaces_of t'
  end.

(** [wp m Q w]: running [m] from [w] ends in an outcome and a world that
    satisfy [Q]. *)
Definition wp {A} (m : M A) (Q : Res A → World → Prop) (w : World) : Prop :=
  Q (m w).1 (m w).2.

(** The graph [build_graph] leaves behind, in closed form
    (see [build_graph_run]). *)
Definition graph_value (metadata : MetaData) (name nodesep ranksep rankdir : string)
    : Digraph :=
  mkDigraph name "png"
    (graph_attr nodesep ranksep rankdir
       :: AttrStmt "node" [("shape", "record")]
       :: node_stmts metadata ++ edge_stmts metadata).

(** The script from line 147 to line 156, that is, after the stale scratch
    file has been dealt with. *)
Definition script_after_reset (F : Faults) (db_metadata : MetaData) : M unit :=
  engine ← create_engine F ("sqlite:///" +:+ tmp_db);
  create_all F db_metadata engine;;
  let metadata := db_metadata in
  g1 ← build_graph metadata "compact" "0.25" "0.5" "TB";
  render F g1 "diagram_compact";;
  g2 ← build_graph metadata "spaced" "1.0" "1.2" "TB";
  render F g2 "diagram_spaced";;
  g3 ← build_graph metadata "symmetric" "1.2" "1.0" "LR";
  render F g3 "diagram_symmetric";;
  os_replace F AtReplace "diagram_spaced.png" "diagram.png".

(** The file names the script renders to. *)
Definition render_filenames : list string :=
  ["diagram_compact"; "diagram_spaced"; "diagram_symmetric"].

(** No stage of any of the three [render] calls is made to fail. *)
Definition no_render_fault (F : Faults) : Prop :=
  ∀ filename stage, filename ∈ render_filenames → F (AtRender filename stage) = None.

(** No call of lines 147-156 is made to fail. *)
Definition no_fault_after_reset (F : Faults) : Prop :=
  F AtCreateEngine = None
  ∧ F AtCreateAll = None
  ∧ no_render_fault F
  ∧ F AtReplace = None.

(** Every way the script, or its lines 147-156, can end, relative to the
    world [w] it started in.  When a call raises, the environment made it
    fail, [diagram.png] is as it was, and either no [os.replace] has been
    made or the three [render] calls went through and it is [os.replace]
    that raised.  When the run returns, no call of lines 147-156 was made
    to fail, the compact and symmetric images are in place, and the spaced
    image has been moved to [diagram.png]. *)
Definition script_post (F : Faults) (metadata : MetaData) (w : World)
    (r : Res unit) (w' : World) : Prop :=
  match r with
  | Raise e =>
      fs w' !! "diagram.png" = fs w !! "diagram.png"
      ∧ (replaces_of (trace w') = replaces_of (trace w) ∨ no_render_fault F)
      ∧ ∃ p, F p = Some e
  | Ok _ =>
      no_fault_after_reset F
      ∧ fs w' !! "diagram_compact.png"
        = Some (Image (graph_value metadata "compact" "0.25" "0.5" "TB"))
      ∧ fs w' !! "diagram_symmetric.png"
        = Some (Image (graph_value metadata "symmetric" "1.2" "1.0" "LR"))
      ∧ fs w' !! "diagram.png"
        = Some (Image (graph_value metadata "spaced" "1.0" "1.2" "TB"))
      ∧ fs w' !! "diagram_spaced.png" = None
      ∧ replaces_of (trace w')
        = replaces_of (trace w) ++ [("diagram_spaced.png", "diagram.png")]
  end.

(** An environment in which the layout program fails on the symmetric
    graph and nothing else goes wrong. *)
Definition symmetric_render_fails : Faults :=
  fun p => match p with
           | AtRender "diagram_symmetric" StRun => Some CalledProcessError
           | _ => None
           end.

(** As [symmetric_render_fails], and the final removal of the scratch
    database fails too. *)
Definition render_and_cleanup_fail : Faults :=
  fun p => match p with
           | AtRender "diagram_symmetric" StRun => Some CalledProcessError
           | AtRemoveFinal => Some OSError
           | _ => None
           end.

(** Number of positions of [s] at which [pat] occurs. *)
Fixpoint occurrences (pat s : string) : nat :=
  (if String.prefix pat s then 1 else 0)
  + match s with
    | EmptyString => 0
    | String _ s' => occurrences pat s'
    end.


(** A node statement from its (name, label) pair, an edge statement from
    its (tail, head) pair. *)
Definition node_of_pair (p : string * string) : Stmt := NodeStmt p.1 p.2.
Definition edge_of_pair (p : string * string) : Stmt := EdgeStmt p.1 p.2.

(** Foreign keys of a table that name the table [target]. *)
Definition references_to (target : string) (table : Table) : list ForeignKey :=
  filter (fun fk => fk_table_name fk = target) (flat_map foreign_keys (columns table)).

(** Whether the character [c] occurs in [s]. *)
Fixpoint occurs_in (c : Ascii.ascii) (s : string) : bool :=
  match s with
  | EmptyString => false
  | String x s' => if Ascii.ascii_dec c x then true else occurs_in c s'
  end.

(** ** [User.serialize] (lines 35-46) *)

(** A Python value of the kinds the columns of [User] hold. *)
Inductive Value :=
| VNone
| VInt (n : Z)
| VStr (s : string)
| VBool (b : bool).

(** A [User] object: one attribute per column, [None] when unset. *)
Record UserInstance (datetime : Type) := mkUserInstance {
  u_id : option Z;
  u_username : option string;
  u_email : option string;
  u_password : option string;
  u_full_name : option string;
  u_bio : option string;
  u_website : option string;
  u_is_private : option bool;
  u_is_verified : option bool;
  u_created_at : option datetime
}.
Arguments mkUserInstance {datetime}.
Arguments u_id {datetime}.
Arguments u_username {datetime}.
Arguments u_email {datetime}.
Arguments u_password {datetime}.
Arguments u_full_name {datetime}.
Arguments u_bio {datetime}.
Arguments u_website {datetime}.
Arguments u_is_private {datetime}.
Arguments u_is_verified {datetime}.
Arguments u_created_at {datetime}.

(** An attribute as a Python value. *)
Definition value_of {A} (f : A → Value) (o : option A) : Value :=
  match o with
  | Some a => f a
  | None => VNone
  end.

(** [serialize]: the returned dict, as its items in insertion order.
    [isoformat] is [datetime.isoformat]. *)
Definition serialize {datetime} (isoformat : datetime → string)
    (self : UserInstance datetime) : list (string * Value) :=
  [("id", value_of VInt (u_id self));
   ("username", value_of VStr (u_username self));
   ("email", value_of VStr (u_email self));
   ("full_name", value_of VStr (u_full_name self));
   ("bio", value_of VStr (u_bio self));
   ("website", value_of VStr (u_website self));
   ("is_private", value_of VBool (u_is_private self));
   ("is_verified", value_of VBool (u_is_verified self));
   ("created_at",
    match u_created_at self with
    | Some t => VStr (isoformat t)
    | None => VNone
    end)].

(** Two [User] objects with the same attributes, the password apart. *)
Definition same_public {datetime} (u u' : UserInstance datetime) : Prop :=
  u_id u = u_id u'
  ∧ u_username u = u_username u'
  ∧ u_email u = u_email u'
  ∧ u_full_name u = u_full_name u'
  ∧ u_bio u = u_bio u'
  ∧ u_website u = u_website u'
  ∧ u_is_private u = u_is_private u'
  ∧ u_is_verified u = u_is_verified u'
  ∧ u_created_at u = u_created_at u'.

(** ** The script as a list of calls *)

(** What a call does to the files when it goes through. *)
Inductive Effect :=
| EKeep
| EPut (path : string) (c : Content)
| EDel (path : string)
| EMove (src dst : string).

(** One call of the script: what it logs when it is made, where it can
    raise, what it does to the files otherwise. *)
Record Step := mkStep {
  st_event : option Event;
  st_point : Point;
  st_effect : Effect
}.

Definition apply_effect (ef : Effect) (m : gmap string Content) : gmap string Content :=
  match ef with
  | EKeep => m
  | EPut path c => <[path := c]> m
  | EDel path => delete path m
  | EMove src dst =>
      match m !! src with
      | Some c => <[dst := c]> (delete src m)
      | None => m
      end
  end.

Definition log_event (ev : option Event) (t : list Event) : list Event :=
  match ev with
  | Some e => t ++ [e]
  | None => t
  end.

(** Make the calls in order and stop at the first one that raises. *)
Fixpoint run_steps (F : Faults) (steps : list Step)
    (m : gmap string Content) (t : list Event)
    : Res unit * gmap string Content * list Event :=
  match steps with
  | [] => (Ok tt, m, t)
  | s :: rest =>
      let t' := log_event (st_event s) t in
      match F (st_point s) with
      | Some e => (Raise e, m, t')
      | None => run_steps F rest (apply_effect (st_effect s) m) t'
      end
  end.

(** The three stages of [g.render(filename, cleanup=True)] for the graph
    [d]. *)
Definition render_steps (filename : string) (d : Digraph) : list Step :=
  [mkStep (Some (EvRender filename)) (AtRender filename StSave)
     (EPut filename (DotSource d));
   mkStep None (AtRender filename StRun)
     (EPut (filename +:+ "." +:+ g_format d) (Image d));
   mkStep (Some (EvRemove filename)) (AtRender filename StCleanup)
     (EDel filename)].

(** Lines 147-156 as calls. *)
Definition steps_after_reset (metadata : MetaData) : list Step :=
  [mkStep None AtCreateEngine EKeep;
   mkStep (Some (EvCreateAll tmp_db)) AtCreateAll
     (EPut tmp_db (SqliteDb (table_names metadata)))]
  ++ render_steps "diagram_compact" (graph_value metadata "compact" "0.25" "0.5" "TB")
  ++ render_steps "diagram_spaced" (graph_value metadata "spaced" "1.0" "1.2" "TB")
  ++ render_steps "diagram_symmetric" (graph_value metadata "symmetric" "1.2" "1.0" "LR")
  ++ [mkStep (Some (EvReplace "diagram_spaced.png" "diagram.png")) AtReplace
        (EMove "diagram_spaced.png" "diagram.png")].

(** Lines 144-156 as calls; [present] tells whether the scratch database
    exists when the script starts (line 145). *)
Definition script_steps (metadata : MetaData) (present : bool) : list Step :=
  (if present then [mkStep (Some (EvRemove tmp_db)) AtRemoveStale (EDel tmp_db)] else [])
  ++ steps_after_reset metadata.

(** Lines 157-162 on the files and the log. *)
Definition run_cleanup (F : Faults) (m : gmap string Content) (t : list Event)
    : gmap string Content * list Event :=
  match m !! tmp_db with
  | Some _ =>
      (match F AtRemoveFinal with
       | Some _ => m
       | None => delete tmp_db m
       end,
       t ++ [EvRemove tmp_db])
  | None => (m, t)
  end.

(** Whether the scratch database exists in [w]. *)
Definition scratch_present (w : World) : bool :=
  bool_decide (is_Some (fs w !! tmp_db)).

(** The first call of a list that the environment makes fail, with the
    exception it raises. *)
Fixpoint first_fault (F : Faults) (points : list Point) : option (Point * Exn) :=
  match points with
  | [] => None
  | p :: rest =>
      match F p with
      | Some e => Some (p, e)
      | None => first_fault F rest
      end
  end.

(** The places where lines 144-156 can raise, in program order. *)
Definition script_points (present : bool) : list Point :=
  (if present then [AtRemoveStale] else [])
  ++ [AtCreateEngine; AtCreateAll;
      AtRender "diagram_compact" StSave; AtRender "diagram_compact" StRun;
      AtRender "diagram_compact" StCleanup;
      AtRender "diagram_spaced" StSave; AtRender "diagram_spaced" StRun;
      AtRender "diagram_spaced" StCleanup;
      AtRender "diagram_symmetric" StSave; AtRender "diagram_symmetric" StRun;
      AtRender "diagram_symmetric" StCleanup;
      AtReplace].

(** The paths the script writes to or removes. *)
Definition script_paths : list string :=
  [tmp_db; "diagram_compact"; "diagram_compact.png";
   "diagram_spaced"; "diagram_spaced.png";
   "diagram_symmetric"; "diagram_symmetric.png"; "diagram.png"].

(** The paths a call can change. *)
Definition effect_paths (ef : Effect) : list string :=
  match ef with
  | EKeep => []
  | EPut path _ => [path]
  | EDel path => [path]
  | EMove src dst => [src; dst]
  end.

(** What the outside sees of a run: how it ended, the files, the log. *)
Definition observed {A} (r : Res A * World) : Res A * gmap string Content * list Event :=
  (r.1, fs r.2, trace r.2).

(** The events lines 144-156 log when every call goes through. *)
Definition script_events (present : bool) : list Event :=
  (if present then [EvRemove tmp_db] else [])
  ++ [EvCreateAll tmp_db;
      EvRender "diagram_compact"; EvRemove "diagram_compact";
      EvRender "diagram_spaced"; EvRemove "diagram_spaced";
      EvRender "diagram_symmetric"; EvRemove "diagram_symmetric";
      EvReplace "diagram_spaced.png" "diagram.png"].

(** ** Table declarations and [Table.key] *)

(** A declared table, [Table(name, metadata, ..., schema=schema)]: a model
    class without [schema] in its table arguments has [schema = None]. *)
Record Declaration := mkDeclaration {
  decl_schema : option string;
  decl_name : string;
  decl_table : Table
}.

(** SQLAlchemy's [Table.key]: the name, qualified by the schema when there
    is one. *)
Definition table_key (dc : Declaration) : string :=
  match decl_schema dc with
  | Some s => s +:+ "." +:+ decl_name dc
  | None => decl_name dc
  end.

(** The metadata the declarations give: [metadata.tables] maps each
    table's key to the table, in declaration order. *)
Definition metadata_of (l : list Declaration) : MetaData :=
  mkMetaData (map (fun dc => (table_key dc, decl_table dc)) l).

(** Every foreign key references a declared table: the table it points at,
    whose name is [fk.column.table.name], is one of the declarations. *)
Definition references_declared_tables (l : list Declaration) : Prop :=
  Forall (fun dc =>
            Forall (fun col =>
                      Forall (fun fk => fk_table_name fk ∈ map decl_name l)
                             (foreign_keys col))
                   (columns (decl_table dc)))
         l.

(** No declared table is schema-qualified: every key of [metadata.tables]
    is the name of its table. *)
Definition unqualified (l : list Declaration) : Prop :=
  Forall (fun dc => decl_schema dc = None) l.

(** The six model classes of lines 11-115; none sets a schema. *)
Definition declared_tables : list Declaration :=
  [mkDeclaration None "user" User; mkDeclaration None "post" Post;
   mkDeclaration None "media" Media; mkDeclaration None "comment" Comment;
   mkDeclaration None "like" Like; mkDeclaration None "follow" Follow].

(** Two tables declared in the schema [app], the second referencing the
    first. *)
Definition qualified_tables : list Declaration :=
  [mkDeclaration (Some "app") "user" (mkTable [pk "id"]);
   mkDeclaration (Some "app") "post" (mkTable [pk "id"; fk "user_id" "user" "id"])].







(** * Properties *)

(** ** Monad and object-store lemmas *)

Lemma add_stmts_nil d : add_stmts [] d = d.
Proof. destruct d; unfold add_stmts; simpl. by rewrite app_nil_r. Qed.

Lemma add_stmts_app a b d : add_stmts b (add_stmts a d) = add_stmts (a ++ b) d.
Proof. unfold add_stmts; simpl. by rewrite app_assoc. Qed.

Lemma bind_ok {A B} (m : M A) (k : A → M B) w a w' :
  m w = (Ok a, w') → (m ≫= k) w = k a w'.
Proof. intros H. unfold mbind, M_bind, bind. by rewrite H. Qed.

Lemma append_holding s g d w0 :
  modify (set_objs (alter (append_body s) g)) (holding w0 g d)
  = (Ok tt, holding w0 g (add_stmts [s] d)).
Proof.
  unfold modify, holding, set_objs; simpl.
  by rewrite alter_insert_eq.
Qed.

Lemma for_holding {A} (stmts : A → list Stmt) (f : A → M unit) g w0 l :
  (∀ x d, f x (holding w0 g d) = (Ok tt, holding w0 g (add_stmts (stmts x) d))) →
  ∀ d, for_ l f (holding w0 g d)
       = (Ok tt, holding w0 g (add_stmts (flat_map stmts l) d)).
Proof.
  intros Hf. induction l as [|x l IH]; intros d; simpl.
  - by rewrite add_stmts_nil.
  - erewrite bind_ok by apply Hf.
    by rewrite IH, add_stmts_app.
Qed.

(** The whole run of [build_graph]: one fresh object, bound to a graph
    whose body is the two attribute statements, then the node statements,
    then the edge statements. *)
Lemma build_graph_run metadata name nodesep ranksep rankdir w :
  build_graph metadata name nodesep ranksep rankdir w
  = (Ok (fresh (dom (objs w))),
     holding w (fresh (dom (objs w)))
       (graph_value metadata name nodesep ranksep rankdir)).
Proof.
  unfold build_graph.
  set (g := fresh (dom (objs w))).
  erewrite bind_ok by (unfold Digraph_new; reflexivity).
  fold g. change (set_objs _ w) with (holding w g (mkDigraph name "png" [])).
  unfold attr, node, edge.
  erewrite bind_ok by apply append_holding.
  erewrite bind_ok by apply append_holding.
  erewrite bind_ok.
  2:{ apply (for_holding (fun '(tname, table) => [NodeStmt tname (build_label tname table)])).
      intros [tname table] d. apply append_holding. }
  erewrite bind_ok.
  2:{ apply (for_holding (fun '(tname, table) =>
               flat_map (fun col => flat_map (fun fk => [EdgeStmt tname (fk_table_name fk)])
                                             (foreign_keys col)) (columns table))).
      intros [tname table] d.
      apply (for_holding (fun col => flat_map (fun fk => [EdgeStmt tname (fk_table_name fk)])
                                             (foreign_keys col))).
      intros col d'.
      apply (for_holding (fun fk => [EdgeStmt tname (fk_table_name fk)])).
      intros fk0 d''. apply append_holding. }
  reflexivity.
Qed.

Lemma built_run metadata name nodesep ranksep rankdir w :
  built metadata name nodesep ranksep rankdir w
  = Some (graph_value metadata name nodesep ranksep rankdir).
Proof.
  unfold built. rewrite build_graph_run.
  unfold holding, set_objs; simpl. apply lookup_insert_eq.
Qed.

(** ** Reading a body back *)

Lemma nodes_of_app a b : nodes_of (a ++ b) = nodes_of a ++ nodes_of b.
Proof.
  induction a as [|[] a IH]; simpl; try done. by rewrite IH.
Qed.

Lemma edges_of_app a b : edges_of (a ++ b) = edges_of a ++ edges_of b.
Proof.
  induction a as [|[] a IH]; simpl; try done. by rewrite IH.
Qed.

Lemma nodes_of_node_stmts metadata :
  nodes_of (node_stmts metadata)
  = map (fun '(tname, table) => (tname, build_label tname table)) (tables metadata).
Proof.
  unfold node_stmts. induction (tables metadata) as [|[tname table] l IH]; simpl; [done|].
  by rewrite IH.
Qed.

Lemma edges_of_node_stmts metadata : edges_of (node_stmts metadata) = [].
Proof.
  unfold node_stmts. induction (tables metadata) as [|[tname table] l IH]; simpl; done.
Qed.

Lemma edges_of_fk_loop tname (fks : list ForeignKey) :
  edges_of (flat_map (fun fk => [EdgeStmt tname (fk_table_name fk)]) fks)
  = map (fun fk => (tname, fk_table_name fk)) fks.
Proof. induction fks as [|f fks IH]; simpl; [done|]. by rewrite IH. Qed.

Lemma nodes_of_fk_loop tname (fks : list ForeignKey) :
  nodes_of (flat_map (fun fk => [EdgeStmt tname (fk_table_name fk)]) fks) = [].
Proof. induction fks as [|f fks IH]; simpl; done. Qed.

Lemma edges_of_column_loop tname (cols : list Column) :
  edges_of (flat_map (fun col => flat_map (fun fk => [EdgeStmt tname (fk_table_name fk)])
                                          (foreign_keys col)) cols)
  = flat_map (fun col => map (fun fk => (tname, fk_table_name fk)) (foreign_keys col)) cols.
Proof.
  induction cols as [|c cols IH]; simpl; [done|].
  by rewrite edges_of_app, edges_of_fk_loop, IH.
Qed.

Lemma nodes_of_column_loop tname (cols : list Column) :
  nodes_of (flat_map (fun col => flat_map (fun fk => [EdgeStmt tname (fk_table_name fk)])
                                          (foreign_keys col)) cols) = [].
Proof.
  induction cols as [|c cols IH]; simpl; [done|].
  by rewrite nodes_of_app, nodes_of_fk_loop, IH.
Qed.

Lemma edges_of_edge_stmts metadata : edges_of (edge_stmts metadata) = fk_references metadata.
Proof.
  unfold edge_stmts, fk_references, table_references.
  induction (tables metadata) as [|[tname table] l IH]; simpl; [done|].
  by rewrite edges_of_app, edges_of_column_loop, IH.
Qed.

Lemma nodes_of_edge_stmts metadata : nodes_of (edge_stmts metadata) = [].
Proof.
  unfold edge_stmts.
  induction (tables metadata) as [|[tname table] l IH]; simpl; [done|].
  by rewrite nodes_of_app, nodes_of_column_loop, IH.
Qed.

(** Nodes and edges of any built graph. *)
Lemma built_nodes_edges metadata name nodesep ranksep rankdir w :
  ∃ d, built metadata name nodesep ranksep rankdir w = Some d
       ∧ nodes_of (body d)
         = map (fun '(tname, table) => (tname, build_label tname table)) (tables metadata)
       ∧ edges_of (body d) = fk_references metadata.
Proof.
  eexists. split; [apply built_run|]. simpl.
  rewrite nodes_of_app, edges_of_app.
  rewrite nodes_of_node_stmts, nodes_of_edge_stmts, edges_of_node_stmts, edges_of_edge_stmts.
  by rewrite app_nil_r.
Qed.

Lemma node_names_of_tables (l : list (string * Table)) :
  map fst (map (fun '(tname, table) => (tname, build_label tname table)) l) = map fst l.
Proof. induction l as [|[tname table] l IH]; simpl; [done|]. by rewrite IH. Qed.

Lemma length_table_references tname table :
  length (table_references tname table)
  = sum_list (map (fun col => length (foreign_keys col)) (columns table)).
Proof.
  unfold table_references.
  induction (columns table) as [|c cols IH]; simpl; [done|].
  by rewrite length_app, length_map, IH.
Qed.

Lemma length_fk_references metadata : length (fk_references metadata) = fk_count metadata.
Proof.
  unfold fk_references, fk_count.
  induction (tables metadata) as [|[tname table] l IH]; simpl; [done|].
  by rewrite length_app, length_table_references, IH.
Qed.

(** ** Layout parameters *)

(** C1. For every schema and any two layout configurations, the two graphs
    [build_graph] makes have the same nodes with the same labels and the
    same sequence of edges, hence the same node and edge counts.  Their
    bodies are equal after the leading [graph] attribute statement, which
    holds [nodesep], [ranksep] and [rankdir]; the format is the same, and
    each graph carries the name it was given. *)
Theorem layout_independence metadata w1 w2
    name1 nodesep1 ranksep1 rankdir1 name2 nodesep2 ranksep2 rankdir2 :
  ∃ d1 d2 rest,
    built metadata name1 nodesep1 ranksep1 rankdir1 w1 = Some d1
    ∧ built metadata name2 nodesep2 ranksep2 rankdir2 w2 = Some d2
    ∧ nodes_of (body d1) = nodes_of (body d2)
    ∧ edges_of (body d1) = edges_of (body d2)
    ∧ length (nodes_of (body d1)) = length (nodes_of (body d2))
    ∧ length (edges_of (body d1)) = length (edges_of (body d2))
    ∧ body d1 = graph_attr nodesep1 ranksep1 rankdir1 :: rest
    ∧ body d2 = graph_attr nodesep2 ranksep2 rankdir2 :: rest
    ∧ g_format d1 = g_format d2
    ∧ g_name d1 = name1 ∧ g_name d2 = name2.
Proof.
  do 3 eexists.
  split; [apply built_run|]. split; [apply built_run|].
  simpl. repeat split; reflexivity.
Qed.

(** ** Cardinality *)

(** C4. The built graph has one node per declared table, named after it
    and in declaration order, and one edge per foreign-key reference of any
    column, in declaration order and with repetitions kept.  In the declared
    schema the two foreign keys of [follow] to [user] give two edges
    follow -> user. *)
Theorem one_node_per_table_one_edge_per_fk :
  (∀ metadata name nodesep ranksep rankdir w,
     ∃ d, built metadata name nodesep ranksep rankdir w = Some d
          ∧ map fst (nodes_of (body d)) = table_names metadata
          ∧ length (nodes_of (body d)) = length (tables metadata)
          ∧ edges_of (body d) = fk_references metadata
          ∧ length (edges_of (body d)) = fk_count metadata)
  ∧ (∀ name nodesep ranksep rankdir w,
       ∃ d, built declared_metadata name nodesep ranksep rankdir w = Some d
            ∧ filter (fun e => e = ("follow", "user")) (edges_of (body d))
              = [("follow", "user"); ("follow", "user")]).
Proof.
  split.
  - intros metadata name nodesep ranksep rankdir w.
    destruct (built_nodes_edges metadata name nodesep ranksep rankdir w)
      as (d & Hd & Hn & He).
    exists d. rewrite Hn, He. repeat split; try done.
    + apply node_names_of_tables.
    + by rewrite length_map.
    + apply length_fk_references.
  - intros name nodesep ranksep rankdir w.
    destruct (built_nodes_edges declared_metadata name nodesep ranksep rankdir w)
      as (d & Hd & _ & He).
    exists d. split; [done|]. rewrite He. reflexivity.
Qed.

(** ** The declared schema *)

(** C10. For the schema declared in the module, the built graph has the six
    nodes user, post, media, comment, like, follow and the nine edges
    post->user, media->post, comment->post, comment->user, comment->comment,
    like->user, like->post, follow->user, follow->user. *)
Theorem declared_schema_graph name nodesep ranksep rankdir w :
  ∃ d, built declared_metadata name nodesep ranksep rankdir w = Some d
       ∧ map fst (nodes_of (body d))
         = ["user"; "post"; "media"; "comment"; "like"; "follow"]
       ∧ length (nodes_of (body d)) = 6
       ∧ edges_of (body d)
         = [("post", "user"); ("media", "post"); ("comment", "post");
            ("comment", "user"); ("comment", "comment"); ("like", "user");
            ("like", "post"); ("follow", "user"); ("follow", "user")]
       ∧ length (edges_of (body d)) = 9.
Proof.
  destruct (built_nodes_edges declared_metadata name nodesep ranksep rankdir w)
    as (d & Hd & Hn & He).
  exists d. rewrite Hn, He. repeat split; try done; reflexivity.
Qed.

(** ** Edge endpoints *)

Lemma references_target_declared metadata s t :
  references_declared metadata →
  (s, t) ∈ fk_references metadata →
  s ∈ table_names metadata ∧ t ∈ table_names metadata.
Proof.
  unfold references_declared, fk_references, table_names, table_references.
  intros Hall Hin.
  apply list_elem_of_In, in_flat_map in Hin as ([tname table] & Htab & Hin).
  apply in_flat_map in Hin as (col & Hcol & Hin).
  apply in_map_iff in Hin as (f & Hf & Hin).
  injection Hf as <- <-.
  split.
  - apply list_elem_of_In, in_map_iff. by exists (tname, table).
  - rewrite Forall_forall in Hall.
    specialize (Hall _ (proj2 (list_elem_of_In _ _) Htab)). simpl in Hall.
    rewrite Forall_forall in Hall.
    specialize (Hall _ (proj2 (list_elem_of_In _ _) Hcol)).
    rewrite Forall_forall in Hall.
    apply Hall. by apply list_elem_of_In.
Qed.

Lemma table_names_metadata_of (l : list Declaration) :
  table_names (metadata_of l) = map table_key l.
Proof.
  unfold table_names, metadata_of; simpl.
  induction l as [|dc l IH]; simpl; [done|]. by rewrite IH.
Qed.

Lemma unqualified_keys (l : list Declaration) :
  unqualified l → map table_key l = map decl_name l.
Proof.
  induction 1 as [|dc l Hdc Hl IH]; simpl; [done|].
  unfold table_key at 1. by rewrite Hdc, IH.
Qed.

Lemma references_declared_of (l : list Declaration) :
  unqualified l →
  references_declared_tables l →
  references_declared (metadata_of l).
Proof.
  intros Hun Hrefs. unfold references_declared.
  rewrite table_names_metadata_of, (unqualified_keys l Hun).
  unfold references_declared_tables in Hrefs.
  unfold metadata_of; simpl.
  generalize (map decl_name l) Hrefs. clear Hun Hrefs.
  intros names Hrefs. induction Hrefs as [|dc l' Hdc Hl IH]; simpl.
  - apply Forall_nil. exact I.
  - apply Forall_cons. split; [exact Hdc | exact IH].
Qed.

(** C9, as stated, fails: with the tables [user] and [post] declared in
    the schema [app], every foreign key references a declared table, yet
    the graph has the nodes [app.user] and [app.post] (named by the keys of
    [metadata.tables], line 135) and the edge from [app.post] to [user]
    (named by [fk.column.table.name], line 139), and [user] is not a
    node. *)
Lemma qualified_edge_target_counterexample :
  references_declared_tables qualified_tables
  ∧ ∃ d, built (metadata_of qualified_tables) "compact" "0.25" "0.5" "TB" empty_world
         = Some d
         ∧ map fst (nodes_of (body d)) = ["app.user"; "app.post"]
         ∧ edges_of (body d) = [("app.post", "user")]
         ∧ "user" ∉ map fst (nodes_of (body d)).
Proof.
  split.
  - unfold references_declared_tables, qualified_tables; simpl.
    repeat (apply Forall_cons; split); try apply Forall_nil; compute_done.
  - eexists. split; [apply built_run|].
    split; [reflexivity|]. split; [reflexivity|]. compute_done.
Qed.

(** C9, amended.  When no declared table is schema-qualified, so that each
    table's key in [metadata.tables] is its name, and every foreign key
    references a declared table, [build_graph] returns a graph in which the
    source and the target of every edge are nodes. *)
Theorem unqualified_edge_endpoints_are_nodes (l : list Declaration)
    name nodesep ranksep rankdir w :
  unqualified l →
  references_declared_tables l →
  ∃ d, built (metadata_of l) name nodesep ranksep rankdir w = Some d
       ∧ ∀ s t, (s, t) ∈ edges_of (body d) →
                s ∈ map fst (nodes_of (body d)) ∧ t ∈ map fst (nodes_of (body d)).
Proof.
  intros Hun Hrefs.
  destruct (built_nodes_edges (metadata_of l) name nodesep ranksep rankdir w)
    as (d & Hd & Hn & He).
  exists d. split; [done|].
  intros s t. rewrite Hn, He, node_names_of_tables.
  apply references_target_declared. by apply references_declared_of.
Qed.

Lemma unqualified_edge_endpoints_are_nodes_witness :
  ∃ d, built (metadata_of declared_tables) "compact" "0.25" "0.5" "TB" empty_world
       = Some d
       ∧ ∀ s t, (s, t) ∈ edges_of (body d) →
                s ∈ map fst (nodes_of (body d)) ∧ t ∈ map fst (nodes_of (body d)).
Proof.
  apply (unqualified_edge_endpoints_are_nodes declared_tables
           "compact" "0.25" "0.5" "TB" empty_world).
  - unfold unqualified, declared_tables.
    repeat (apply Forall_cons; split; [reflexivity|]). apply Forall_nil. exact I.
  - unfold references_declared_tables, declared_tables; simpl.
    repeat (apply Forall_cons; split); try apply Forall_nil; compute_done.
Defined.

(** ** Self-reference *)

Lemma filter_references_other s t tname table :
  tname ≠ s →
  filter (fun e => e = (s, t)) (table_references tname table) = [].
Proof.
  intros Hne. unfold table_references.
  induction (columns table) as [|c cols IH]; simpl; [done|].
  rewrite filter_app, IH, app_nil_r.
  induction (foreign_keys c) as [|f fks IHf]; simpl; [done|].
  rewrite filter_cons. case_decide as Heq; [|done].
  injection Heq as ? ?. done.
Qed.

Lemma filter_references_own s t table :
  length (filter (fun e => e = (s, t)) (table_references s table))
  = length (filter (fun fk => fk_table_name fk = t)
                   (flat_map foreign_keys (columns table))).
Proof.
  unfold table_references.
  induction (columns table) as [|c cols IH]; simpl; [done|].
  rewrite !filter_app, !length_app, IH. f_equal.
  induction (foreign_keys c) as [|f fks IHf]; simpl; [done|].
  rewrite !filter_cons.
  destruct (decide (fk_table_name f = t)) as [Ht|Ht].
  - rewrite decide_True by (by rewrite Ht). simpl. by rewrite IHf.
  - rewrite decide_False by (intros [=]; done). done.
Qed.

Lemma filter_fk_references (l : list (string * Table)) s t table :
  NoDup (map fst l) →
  (s, table) ∈ l →
  filter (fun e => e = (s, t))
         (flat_map (fun '(tname, table) => table_references tname table) l)
  = filter (fun e => e = (s, t)) (table_references s table).
Proof.
  induction l as [|[tname0 table0] l IH]; simpl; intros Hnd Hin.
  - by apply elem_of_nil in Hin.
  - apply NoDup_cons in Hnd as [Hnotin Hnd].
    rewrite filter_app.
    apply elem_of_cons in Hin as [Heq|Hin].
    + injection Heq as <- <-.
      assert (filter (fun e => e = (s, t))
                (flat_map (fun '(tname, table) => table_references tname table) l) = [])
        as ->; [|by rewrite app_nil_r].
      clear IH Hnd. induction l as [|[tname1 table1] l IHl]; simpl; [done|].
      rewrite filter_app, filter_references_other, IHl; [done| |].
      * intros Hin. apply Hnotin. simpl. by right.
      * intros ->. apply Hnotin. simpl. by left.
    + rewrite filter_references_other, IH; [done..|].
      intros ->. apply Hnotin.
      apply list_elem_of_In, in_map_iff. exists (s, table).
      split; [done|]. by apply list_elem_of_In.
Qed.




(** ** Determinism *)

Lemma fresh_unbound (m : gmap nat Digraph) : m !! fresh (dom m) = None.
Proof. apply not_elem_of_dom, is_fresh. Qed.

(** C8. Two calls of [build_graph] on the same schema with the same name
    and layout parameters, one after the other, return two distinct objects
    holding the same graph: same name and format, same body, hence the same
    node labels and the same edges in the same order.  The second call
    leaves the first graph as it was; neither call touches the files, the
    log or the objects that existed before, and the graph built does not
    depend on the world the call starts in. *)
Theorem build_graph_deterministic metadata name nodesep ranksep rankdir w w_other :
  ∃ g1 w1 g2 w2 d1 d2,
    build_graph metadata name nodesep ranksep rankdir w = (Ok g1, w1)
    ∧ build_graph metadata name nodesep ranksep rankdir w1 = (Ok g2, w2)
    ∧ g1 ≠ g2
    ∧ objs w1 !! g1 = Some d1
    ∧ objs w2 !! g1 = Some d1
    ∧ objs w2 !! g2 = Some d2
    ∧ d1 = d2
    ∧ nodes_of (body d1) = nodes_of (body d2)
    ∧ edges_of (body d1) = edges_of (body d2)
    ∧ built metadata name nodesep ranksep rankdir w_other = Some d1
    ∧ fs w2 = fs w ∧ trace w2 = trace w
    ∧ objs w ⊆ objs w2.
Proof.
  pose proof (build_graph_run metadata name nodesep ranksep rankdir w) as H1.
  set (g1 := fresh (dom (objs w))) in *.
  set (d := graph_value _ _ _ _ _) in *.
  pose proof (build_graph_run metadata name nodesep ranksep rankdir (holding w g1 d)) as H2.
  fold d in H2.
  set (g2 := fresh (dom (objs (holding w g1 d)))) in *.
  assert (g1 ≠ g2) as Hne.
  { intros Heq.
    pose proof (fresh_unbound (objs (holding w g1 d))) as Hfresh.
    fold g2 in Hfresh. rewrite <- Heq in Hfresh.
    unfold holding, set_objs in Hfresh; simpl in Hfresh.
    by rewrite lookup_insert_eq in Hfresh. }
  exists g1, (holding w g1 d), g2, (holding (holding w g1 d) g2 d), d, d.
  repeat split; try done.
  - unfold holding, set_objs; simpl. apply lookup_insert_eq.
  - unfold holding, set_objs; simpl.
    rewrite lookup_insert_ne by done. apply lookup_insert_eq.
  - unfold holding, set_objs; simpl. apply lookup_insert_eq.
  - apply built_run.
  - unfold holding, set_objs; simpl.
    etrans; [apply (insert_subseteq _ g1 d), fresh_unbound|].
    apply insert_subseteq. apply (fresh_unbound (objs (holding w g1 d))).
Qed.

(** ** Weakest preconditions of the script's calls *)

Lemma wp_run {A} (m : M A) Q w r w' : m w = (r, w') → Q r w' → wp m Q w.
Proof. unfold wp. by intros ->. Qed.

Lemma wp_ret {A} (a : A) Q w : Q (Ok a) w → wp (mret a) Q w.
Proof. done. Qed.

Lemma wp_bind {A B} (m : M A) (k : A → M B) Q w :
  wp m (fun r w' => match r with
                    | Ok a => wp (k a) Q w'
                    | Raise e => Q (Raise e) w'
                    end) w →
  wp (m ≫= k) Q w.
Proof.
  unfold wp, mbind, M_bind, bind. by destruct (m w) as [[a|e] w'].
Qed.

Lemma wp_modify f Q w : Q (Ok tt) (f w) → wp (modify f) Q w.
Proof. done. Qed.

Lemma wp_fault F p Q w :
  (∀ e, F p = Some e → Q (Raise e) w) →
  (F p = None → Q (Ok tt) w) →
  wp (fault F p) Q w.
Proof.
  unfold wp, fault. intros Hraise Hok.
  destruct (F p) as [e|]; simpl; auto.
Qed.

Lemma wp_os_path_exists path Q w :
  Q (Ok (bool_decide (is_Some (fs w !! path)))) w → wp (os_path_exists path) Q w.
Proof. done. Qed.

Lemma wp_os_remove F p path Q w :
  let w1 := add_event (EvRemove path) w in
  (∀ e, F p = Some e → Q (Raise e) w1) →
  (F p = None → fs w !! path = None → Q (Raise FileNotFoundError) w1) →
  (F p = None → is_Some (fs w !! path) → Q (Ok tt) (set_fs (delete path) w1)) →
  wp (os_remove F p path) Q w.
Proof.
  intros w1 Hraise Hmissing Hok. unfold os_remove.
  apply wp_bind, wp_modify, wp_bind, wp_fault; [done|]. intros HF.
  apply wp_bind, wp_os_path_exists. fold w1.
  change (fs w1) with (fs w).
  destruct (fs w !! path) as [c|] eqn:Hc; simpl.
  - apply wp_modify, Hok; done.
  - apply Hmissing; done.
Qed.

Lemma wp_os_replace F p src dst Q w :
  let w1 := add_event (EvReplace src dst) w in
  (∀ e, F p = Some e → Q (Raise e) w1) →
  (F p = None → fs w !! src = None → Q (Raise FileNotFoundError) w1) →
  (∀ c, F p = None → fs w !! src = Some c →
        Q (Ok tt) (set_fs (fun m => <[dst := c]> (delete src m)) w1)) →
  wp (os_replace F p src dst) Q w.
Proof.
  intros w1 Hraise Hmissing Hok. unfold os_replace.
  apply wp_bind, wp_modify, wp_bind, wp_fault; [done|]. intros HF.
  apply wp_bind. unfold wp, gets; simpl. fold w1.
  destruct (fs w !! src) as [c|] eqn:Hc.
  - apply wp_modify, Hok; done.
  - apply Hmissing; done.
Qed.

Lemma wp_create_engine F u Q w :
  (∀ e, F AtCreateEngine = Some e → Q (Raise e) w) →
  (F AtCreateEngine = None → Q (Ok (mkEngine u)) w) →
  wp (create_engine F u) Q w.
Proof.
  intros Hraise Hok. unfold create_engine.
  apply wp_bind, wp_fault; [done|]. intros HF. apply wp_ret; auto.
Qed.

Lemma wp_create_all F metadata engine Q w :
  let path := sqlite_path (url engine) in
  let w1 := add_event (EvCreateAll path) w in
  (∀ e, F AtCreateAll = Some e → Q (Raise e) w1) →
  (F AtCreateAll = None →
   Q (Ok tt) (set_fs <[path := SqliteDb (table_names metadata)]> w1)) →
  wp (create_all F metadata engine) Q w.
Proof.
  intros path w1 Hraise Hok. unfold create_all.
  apply wp_bind, wp_modify, wp_bind, wp_fault; [done|]. intros HF.
  apply wp_modify; auto.
Qed.

Lemma wp_build_graph metadata name nodesep ranksep rankdir Q w :
  (∀ g, objs w !! g = None →
        Q (Ok g) (holding w g (graph_value metadata name nodesep ranksep rankdir))) →
  wp (build_graph metadata name nodesep ranksep rankdir) Q w.
Proof.
  intros HQ. eapply wp_run; [apply build_graph_run|].
  apply HQ, fresh_unbound.
Qed.

Lemma wp_render F g filename d Q w :
  objs w !! g = Some d →
  let rendered := filename +:+ "." +:+ g_format d in
  filename ≠ rendered →
  let w1 := add_event (EvRender filename) w in
  let w2 := set_fs <[filename := DotSource d]> w1 in
  let w3 := add_event (EvRemove filename) (set_fs <[rendered := Image d]> w2) in
  (∀ e, F (AtRender filename StSave) = Some e → Q (Raise e) w1) →
  (∀ e, F (AtRender filename StRun) = Some e → Q (Raise e) w2) →
  (∀ e, F (AtRender filename StCleanup) = Some e → Q (Raise e) w3) →
  (F (AtRender filename StSave) = None →
   F (AtRender filename StRun) = None →
   F (AtRender filename StCleanup) = None →
   Q (Ok rendered) (set_fs (delete filename) w3)) →
  wp (render F g filename) Q w.
Proof.
  intros Hg rendered Hne w1 w2 w3 Hsave Hrun Hclean Hok. unfold render.
  apply wp_bind, wp_modify, wp_bind.
  eapply wp_run; [unfold deref; simpl; by rewrite Hg|].
  apply wp_bind, wp_fault; [done|]. intros HF1.
  apply wp_bind, wp_modify, wp_bind, wp_fault; [done|]. intros HF2.
  apply wp_bind, wp_modify, wp_bind, wp_os_remove; fold rendered w1 w2 w3.
  - done.
  - intros _. simpl. rewrite lookup_insert_ne by done.
    by rewrite lookup_insert_eq.
  - intros HF3 _. apply wp_ret. by apply Hok.
Qed.

Lemma wp_try_except {A} (m : M A) h Q w :
  wp m (fun r w' => match r with
                    | Ok a => Q (Ok a) w'
                    | Raise e => wp (h e) Q w'
                    end) w →
  wp (try_except m h) Q w.
Proof.
  unfold wp, try_except. by destruct (m w) as [[a|e] w'].
Qed.

Lemma wp_try_finally {A} (m : M A) fin Q w :
  wp m (fun r w' => wp fin (fun r' w'' => match r' with
                                          | Ok _ => Q r w''
                                          | Raise e => Q (Raise e) w''
                                          end) w') w →
  wp (try_finally m fin) Q w.
Proof.
  unfold wp, try_finally. destruct (m w) as [r w']; simpl.
  by destruct (fin w') as [[u|e] w''].
Qed.

Lemma wp_mono {A} (m : M A) (Q Q' : Res A → World → Prop) w :
  wp m Q w → (∀ r w', Q r w' → Q' r w') → wp m Q' w.
Proof. unfold wp. auto. Qed.

Lemma wp_elim {A} (m : M A) Q w : wp m Q w → ∃ r w', m w = (r, w') ∧ Q r w'.
Proof. unfold wp. intros H. exists (m w).1, (m w).2. by destruct (m w). Qed.

Lemma replaces_of_app a b : replaces_of (a ++ b) = replaces_of a ++ replaces_of b.
Proof.
  induction a as [|[] a IH]; simpl; try done. by rewrite IH.
Qed.

(** ** The cleanup block (lines 157-162) *)

Lemma wp_script_cleanup F Q w :
  (∀ w', objs w' = objs w →
         (∀ p, p ≠ tmp_db → fs w' !! p = fs w !! p) →
         (F AtRemoveFinal = None → fs w' !! tmp_db = None) →
         (fs w !! tmp_db = None → w' = w) →
         (is_Some (fs w !! tmp_db) → trace w' = trace w ++ [EvRemove tmp_db]) →
         replaces_of (trace w') = replaces_of (trace w) →
         Q (Ok tt) w') →
  wp (script_cleanup F) Q w.
Proof.
  intros HQ. unfold script_cleanup.
  apply wp_try_except, wp_bind, wp_os_path_exists.
  destruct (fs w !! tmp_db) as [c|] eqn:Hc; cbn.
  - apply wp_os_remove; cbn.
    + intros e He. apply wp_ret, HQ; cbn; try done.
      * by rewrite He.
      * by rewrite replaces_of_app, app_nil_r.
    + by rewrite Hc.
    + intros HF _. apply HQ; cbn; try done.
      * intros p Hp. by rewrite lookup_delete_ne.
      * intros _. apply lookup_delete_eq.
      * by rewrite replaces_of_app, app_nil_r.
  - apply wp_ret, HQ; done.
Qed.

(** ** Lines 147-156 *)

Lemma sqlite_path_tmp_db : sqlite_path ("sqlite:///" +:+ tmp_db) = "tmp_instagram.db".
Proof. reflexivity. Qed.

Ltac world_simpl :=
  rewrite ?sqlite_path_tmp_db;
  cbn [fs trace objs holding set_fs set_objs add_event g_format graph_value
       String.append].

Ltac fs_simpl :=
  world_simpl;
  repeat first
    [ rewrite lookup_insert_eq
    | rewrite lookup_delete_eq
    | rewrite lookup_insert_ne by discriminate
    | rewrite lookup_delete_ne by discriminate ].

Ltac trace_simpl :=
  world_simpl;
  rewrite ?replaces_of_app; cbn [replaces_of]; rewrite ?app_nil_r.

Ltac raise_leaf :=
  intros; split; [by fs_simpl | split; [left; by trace_simpl | eauto]].

Lemma wp_script_after_reset F (metadata : MetaData) w :
  wp (script_after_reset F metadata) (script_post F metadata w) w.
Proof.
  unfold script_after_reset, script_post.
  apply wp_bind, wp_create_engine; [raise_leaf|]. intros HF1.
  apply wp_bind, wp_create_all; cbn [url]; [raise_leaf|]. intros HF2.
  apply wp_bind, wp_build_graph. intros g1 Hg1.
  apply wp_bind.
  eapply wp_render;
    [by fs_simpl | cbn; discriminate | raise_leaf | raise_leaf | raise_leaf |].
  intros HF3 HF4 HF5.
  apply wp_bind, wp_build_graph. intros g2 Hg2.
  apply wp_bind.
  eapply wp_render;
    [by fs_simpl | cbn; discriminate | raise_leaf | raise_leaf | raise_leaf |].
  intros HF6 HF7 HF8.
  apply wp_bind, wp_build_graph. intros g3 Hg3.
  apply wp_bind.
  eapply wp_render;
    [by fs_simpl | cbn; discriminate | raise_leaf | raise_leaf | raise_leaf |].
  intros HF9 HF10 HF11.
  assert (no_render_fault F) as Hrender.
  { intros filename stage Hin. unfold render_filenames in Hin.
    repeat (apply elem_of_cons in Hin as [->|Hin]); [by destruct stage..|].
    by apply elem_of_nil in Hin. }
  apply wp_os_replace.
  - intros e He. split; [by fs_simpl | split; [by right | eauto]].
  - intros _. fs_simpl. discriminate.
  - intros c HF12. fs_simpl. intros [= <-].
    split; [done|]. repeat split; [by fs_simpl.. | by trace_simpl].
Qed.

(** ** The whole script *)

Lemma script_body_split F metadata :
  script_body F metadata
  = (present ← os_path_exists tmp_db;
     when_ present (os_remove F AtRemoveStale tmp_db);;
     script_after_reset F metadata).
Proof. reflexivity. Qed.

Lemma script_post_shift F metadata w0 w r w' :
  fs w0 !! "diagram.png" = fs w !! "diagram.png" →
  replaces_of (trace w0) = replaces_of (trace w) →
  script_post F metadata w0 r w' → script_post F metadata w r w'.
Proof.
  intros Hfs Htr. unfold script_post. destruct r as [u|e].
  - by rewrite Htr.
  - by rewrite Hfs, Htr.
Qed.

Lemma wp_script_body F metadata w :
  wp (script_body F metadata) (script_post F metadata w) w.
Proof.
  rewrite script_body_split.
  apply wp_bind, wp_os_path_exists.
  destruct (fs w !! tmp_db) as [c|] eqn:Hc; cbn.
  - apply wp_bind, wp_os_remove.
    + intros e He. split; [done|]. split; [left; by trace_simpl | eauto].
    + by rewrite Hc.
    + intros HF _.
      eapply wp_mono; [apply wp_script_after_reset|].
      intros r w'. apply script_post_shift.
      * unfold tmp_db. by fs_simpl.
      * by trace_simpl.
  - apply wp_bind, wp_ret. apply wp_script_after_reset.
Qed.

Lemma wp_main F metadata w :
  wp (main F metadata)
     (fun r w' =>
        script_post F metadata w r w'
        ∧ ∃ w1, script_body F metadata w = (r, w1)
                ∧ objs w' = objs w1
                ∧ (∀ p, p ≠ tmp_db → fs w' !! p = fs w1 !! p)
                ∧ (F AtRemoveFinal = None → fs w' !! tmp_db = None)
                ∧ (fs w1 !! tmp_db = None → w' = w1)
                ∧ (is_Some (fs w1 !! tmp_db) → trace w' = trace w1 ++ [EvRemove tmp_db]))
     w.
Proof.
  unfold main. apply wp_try_finally.
  pose proof (wp_script_body F metadata w) as Hbody.
  unfold wp at 1. unfold wp in Hbody.
  destruct (script_body F metadata w) as [r w1] eqn:Hrun. simpl in *.
  apply wp_script_cleanup. intros w' Hobjs Hfs Hgone Hsame Hlog Hrep.
  assert (script_post F metadata w r w') as Hpost.
  { unfold script_post in *. destruct r as [u|e].
    - rewrite !Hfs, Hrep by (unfold tmp_db; discriminate). done.
    - rewrite !Hfs, Hrep by (unfold tmp_db; discriminate). done. }
  split; [done|]. exists w1. done.
Qed.

Lemma main_run F metadata w :
  ∃ r w1 w',
    script_body F metadata w = (r, w1)
    ∧ main F metadata w = (r, w')
    ∧ script_post F metadata w r w'
    ∧ objs w' = objs w1
    ∧ (∀ p, p ≠ tmp_db → fs w' !! p = fs w1 !! p)
    ∧ (F AtRemoveFinal = None → fs w' !! tmp_db = None)
    ∧ (fs w1 !! tmp_db = None → w' = w1)
    ∧ (is_Some (fs w1 !! tmp_db) → trace w' = trace w1 ++ [EvRemove tmp_db]).
Proof.
  destruct (wp_elim _ _ _ (wp_main F metadata w))
    as (r & w' & Hmain & Hpost & w1 & Hbody & H).
  exists r, w1, w'. done.
Qed.

(** A run in which the environment makes no call fail returns. *)
Lemma no_faults_returns metadata w : ∃ w', main no_faults metadata w = (Ok tt, w').
Proof.
  destruct (main_run no_faults metadata w) as (r & w1 & w' & _ & Hmain & Hpost & _).
  exists w'. destruct r as [[]|e]; [done|].
  destruct Hpost as (_ & _ & p & Hp). discriminate.
Qed.

(** ** Failure of a render *)

(** C2. When the environment makes a stage of the [render] call of any of
    the three configurations fail, the script ends with an exception, no
    [os.replace] call is made during the run, and [diagram.png] is what it
    was before the run: absent if it was absent, unchanged if it existed.
    The symmetric configuration is one of the three. *)
Theorem render_failure_blocks_canonical_copy F metadata w filename stage e :
  filename ∈ render_filenames →
  F (AtRender filename stage) = Some e →
  ∃ e' w', main F metadata w = (Raise e', w')
           ∧ replaces_of (trace w') = replaces_of (trace w)
           ∧ fs w' !! "diagram.png" = fs w !! "diagram.png".
Proof.
  intros Hin He.
  destruct (main_run F metadata w) as (r & w1 & w' & _ & Hmain & Hpost & _).
  destruct r as [u|e'].
  - destruct Hpost as ((_ & _ & Hrender & _) & _).
    rewrite (Hrender filename stage Hin) in He. discriminate.
  - exists e', w'. destruct Hpost as (Hfs & [Hrep|Hrender] & _).
    + done.
    + rewrite (Hrender filename stage Hin) in He. discriminate.
Qed.

Lemma render_failure_blocks_canonical_copy_witness :
  ∃ e' w', main symmetric_render_fails declared_metadata empty_world = (Raise e', w')
           ∧ replaces_of (trace w') = []
           ∧ fs w' !! "diagram.png" = None.
Proof.
  apply (render_failure_blocks_canonical_copy symmetric_render_fails declared_metadata
           empty_world "diagram_symmetric" StRun CalledProcessError).
  - unfold render_filenames. compute_done.
  - reflexivity.
Defined.

(** ** A successful run *)

(** C3, as stated, fails: after a run of the declared schema in which
    nothing goes wrong, [diagram_spaced.png] does not exist, so the four
    files do not all exist. *)
Lemma four_artifacts_counterexample :
  (main no_faults declared_metadata empty_world).1 = Ok tt
  ∧ ¬ is_Some (fs (main no_faults declared_metadata empty_world).2 !! "diagram_spaced.png").
Proof.
  split.
  - vm_compute. reflexivity.
  - intros [c Hc]. vm_compute in Hc. discriminate.
Qed.

(** C3, amended.  After a run that returns, there are three images:
    [diagram_compact.png] holds the rendering of the graph built with
    nodesep 0.25, ranksep 0.5, rankdir TB; [diagram_symmetric.png] that of
    the graph built with nodesep 1.2, ranksep 1.0, rankdir LR; and
    [diagram.png] that of the graph built with nodesep 1.0, ranksep 1.2,
    rankdir TB, moved there from [diagram_spaced.png] by the one
    [os.replace] call of the run.  [diagram_spaced.png] no longer exists. *)
Theorem successful_run_artifacts F metadata w w' :
  main F metadata w = (Ok tt, w') →
  ∃ d1 d2 d3,
    built metadata "compact" "0.25" "0.5" "TB" w = Some d1
    ∧ built metadata "spaced" "1.0" "1.2" "TB" w = Some d2
    ∧ built metadata "symmetric" "1.2" "1.0" "LR" w = Some d3
    ∧ head (body d1) = Some (graph_attr "0.25" "0.5" "TB")
    ∧ head (body d2) = Some (graph_attr "1.0" "1.2" "TB")
    ∧ head (body d3) = Some (graph_attr "1.2" "1.0" "LR")
    ∧ fs w' !! "diagram_compact.png" = Some (Image d1)
    ∧ fs w' !! "diagram_symmetric.png" = Some (Image d3)
    ∧ fs w' !! "diagram.png" = Some (Image d2)
    ∧ fs w' !! "diagram_spaced.png" = None
    ∧ replaces_of (trace w')
      = replaces_of (trace w) ++ [("diagram_spaced.png", "diagram.png")].
Proof.
  intros Hrun.
  destruct (main_run F metadata w) as (r & w1 & w'' & _ & Hmain & Hpost & _).
  rewrite Hrun in Hmain. injection Hmain as <- <-.
  destruct Hpost as (_ & Hc & Hs & Hd & Hgone & Hrep).
  do 3 eexists. do 3 (split; [apply built_run|]).
  repeat split; done.
Qed.

Lemma successful_run_artifacts_witness :
  ∃ d1 d2 d3,
    built declared_metadata "compact" "0.25" "0.5" "TB" empty_world = Some d1
    ∧ built declared_metadata "spaced" "1.0" "1.2" "TB" empty_world = Some d2
    ∧ built declared_metadata "symmetric" "1.2" "1.0" "LR" empty_world = Some d3
    ∧ head (body d1) = Some (graph_attr "0.25" "0.5" "TB")
    ∧ head (body d2) = Some (graph_attr "1.0" "1.2" "TB")
    ∧ head (body d3) = Some (graph_attr "1.2" "1.0" "LR")
    ∧ fs (main no_faults declared_metadata empty_world).2 !! "diagram_compact.png"
      = Some (Image d1)
    ∧ fs (main no_faults declared_metadata empty_world).2 !! "diagram_symmetric.png"
      = Some (Image d3)
    ∧ fs (main no_faults declared_metadata empty_world).2 !! "diagram.png"
      = Some (Image d2)
    ∧ fs (main no_faults declared_metadata empty_world).2 !! "diagram_spaced.png" = None
    ∧ replaces_of (trace (main no_faults declared_metadata empty_world).2)
      = [("diagram_spaced.png", "diagram.png")].
Proof.
  apply (successful_run_artifacts no_faults declared_metadata empty_world).
  vm_compute. reflexivity.
Defined.

(** ** Cleanup *)

(** C7. However lines 144-156 end, by returning or by raising at any call,
    the cleanup block runs and the script ends the same way: an exception
    raised while cleaning up never replaces that outcome.  When the scratch
    database exists at that point, [os.remove] is called on it; when the
    environment does not make that call fail, the scratch database does not
    exist once the script has ended.  No other file is touched by the
    cleanup. *)
Theorem cleanup_on_every_exit F metadata w :
  ∃ r w1 w',
    script_body F metadata w = (r, w1)
    ∧ main F metadata w = (r, w')
    ∧ (is_Some (fs w1 !! tmp_db) → trace w' = trace w1 ++ [EvRemove tmp_db])
    ∧ (F AtRemoveFinal = None → fs w' !! tmp_db = None)
    ∧ (fs w1 !! tmp_db = None → w' = w1)
    ∧ (∀ p, p ≠ tmp_db → fs w' !! p = fs w1 !! p).
Proof.
  destruct (main_run F metadata w)
    as (r & w1 & w' & Hbody & Hmain & _ & _ & Hfs & Hgone & Hsame & Hlog).
  exists r, w1, w'. done.
Qed.

Lemma cleanup_on_every_exit_witness :
  (∃ w', main symmetric_render_fails declared_metadata empty_world
         = (Raise CalledProcessError, w')
         ∧ fs w' !! tmp_db = None)
  ∧ (main render_and_cleanup_fail declared_metadata empty_world).1
    = Raise CalledProcessError.
Proof.
  split.
  - destruct (cleanup_on_every_exit symmetric_render_fails declared_metadata empty_world)
      as (r & w1 & w' & Hbody & Hmain & _ & Hgone & _).
    exists w'. split; [|by apply Hgone].
    rewrite Hmain. f_equal.
    assert ((script_body symmetric_render_fails declared_metadata empty_world).1
            = Raise CalledProcessError) as Hr by (vm_compute; reflexivity).
    by rewrite Hbody in Hr.
  - destruct (cleanup_on_every_exit render_and_cleanup_fail declared_metadata empty_world)
      as (r & w1 & w' & Hbody & Hmain & _).
    rewrite Hmain. simpl.
    assert ((script_body render_and_cleanup_fail declared_metadata empty_world).1
            = Raise CalledProcessError) as Hr by (vm_compute; reflexivity).
    by rewrite Hbody in Hr.
Defined.

(** ** Primary-key marker *)

Lemma fold_left_snoc {A B} (f : A → B) (l : list A) (acc : list B) :
  fold_left (fun fields x => fields ++ [f x]) l acc = acc ++ map f l.
Proof.
  revert acc. induction l as [|x l IH]; intros acc; simpl.
  - by rewrite app_nil_r.
  - by rewrite IH, <- app_assoc.
Qed.

Lemma build_fields_map table :
  build_fields table
  = map (fun col => (if primary_key col then col_name col +:+ " (PK)" else col_name col)
                    +:+ "\l")
        (columns table).
Proof. unfold build_fields. by rewrite fold_left_snoc. Qed.

Lemma append_nil (t : string) : "" +:+ t = t.
Proof. reflexivity. Qed.

Lemma append_cons c (s t : string) : String c s +:+ t = String c (s +:+ t).
Proof. reflexivity. Qed.

Lemma string_app_assoc (a b c : string) : (a +:+ b) +:+ c = a +:+ b +:+ c.
Proof.
  induction a as [|x a IH]; [done|].
  rewrite !append_cons. by f_equal.
Qed.

Lemma prefix_nil (s : string) : String.prefix "" s = true.
Proof. by destruct s. Qed.

Lemma prefix_cons_nil a (p : string) : String.prefix (String a p) "" = false.
Proof. reflexivity. Qed.

Lemma prefix_cons_cons a b (p s : string) :
  String.prefix (String a p) (String b s)
  = if Ascii.ascii_dec a b then String.prefix p s else false.
Proof. reflexivity. Qed.

(** Decide [String.prefix] on strings whose first characters are known or
    are variables, one character at a time. *)
Ltac prefix_step H :=
  first
    [ rewrite prefix_nil in H
    | rewrite prefix_cons_nil in H
    | rewrite prefix_cons_cons in H;
      match type of H with
      | context [Ascii.ascii_dec ?a ?b] =>
          let e := fresh "e" in
          destruct (Ascii.ascii_dec a b) as [e|e];
          [ try discriminate e; try subst | try (exfalso; by apply e) ]
      end ];
  try discriminate H.

Ltac straddle name H Hpre :=
  destruct name as [|? [|? [|? [|? [|? ?]]]]]; [done|..];
  rewrite ?append_cons, ?append_nil in H;
  repeat prefix_step H; repeat prefix_step Hpre.

(** An occurrence of the marker cannot start inside a marker-free name
    and run into what follows it, when what follows is the marker and the
    line break, or the line break alone. *)
Lemma no_straddle_marked name :
  name ≠ "" →
  String.prefix " (PK)" name = false →
  String.prefix " (PK)" (name +:+ " (PK)\l") = false.
Proof.
  intros Hne Hpre.
  destruct (String.prefix " (PK)" (name +:+ " (PK)\l")) eqn:H; [|done].
  exfalso. straddle name H Hpre.
Qed.


Lemma occurrences_marked name :
  occurrences " (PK)" name = 0 →
  occurrences " (PK)" (name +:+ " (PK)\l") = 1.
Proof.
  induction name as [|c name IH]; intros Hfree; [reflexivity|].
  cbn [occurrences] in Hfree.
  destruct (String.prefix " (PK)" (String c name)) eqn:Hpre; [done|].
  rewrite append_cons. cbn [occurrences]. rewrite <- append_cons.
  rewrite no_straddle_marked by done.
  by rewrite IH.
Qed.






(** * Further properties of [build_graph] *)

Lemma node_stmts_pairs metadata :
  node_stmts metadata = map node_of_pair (nodes_of (node_stmts metadata)).
Proof.
  unfold node_stmts.
  induction (tables metadata) as [|[tname table] l IH]; simpl; [done|].
  by rewrite <- IH.
Qed.

Lemma edge_stmts_pairs metadata :
  edge_stmts metadata = map edge_of_pair (edges_of (edge_stmts metadata)).
Proof.
  unfold edge_stmts.
  induction (tables metadata) as [|[tname table] l IH]; simpl; [done|].
  rewrite edges_of_app, map_app, <- IH. f_equal.
  induction (columns table) as [|c cols IHc]; simpl; [done|].
  rewrite edges_of_app, map_app, <- IHc. f_equal.
  induction (foreign_keys c) as [|f fks IHf]; simpl; [done|].
  by rewrite <- IHf.
Qed.

(** The body of a built graph, in order: the [graph] attribute statement,
    the [node] attribute statement with shape [record], then every node
    statement, then every edge statement.  No node statement comes after an
    edge statement and there is no other statement; the graph has the name
    it was given and the format [png]. *)
Theorem built_body_layout metadata name nodesep ranksep rankdir w :
  ∃ d, built metadata name nodesep ranksep rankdir w = Some d
       ∧ body d
         = [graph_attr nodesep ranksep rankdir; AttrStmt "node" [("shape", "record")]]
           ++ map node_of_pair (nodes_of (body d))
           ++ map edge_of_pair (edges_of (body d))
       ∧ g_name d = name
       ∧ g_format d = "png".
Proof.
  eexists. split; [apply built_run|]. simpl.
  rewrite nodes_of_app, edges_of_app.
  rewrite nodes_of_edge_stmts, edges_of_node_stmts, app_nil_r. simpl.
  by rewrite <- node_stmts_pairs, <- edge_stmts_pairs.
Qed.

(** Building the graph of a schema whose tables are those of one list
    followed by those of another gives the nodes of the first followed by
    the nodes of the second, and the same for the edges: a table added to a
    schema changes neither the nodes nor the edges of the tables already
    there. *)
Theorem built_tables_app (l1 l2 : list (string * Table)) name nodesep ranksep rankdir
    w w1 w2 :
  ∃ d d1 d2,
    built (mkMetaData (l1 ++ l2)) name nodesep ranksep rankdir w = Some d
    ∧ built (mkMetaData l1) name nodesep ranksep rankdir w1 = Some d1
    ∧ built (mkMetaData l2) name nodesep ranksep rankdir w2 = Some d2
    ∧ nodes_of (body d) = nodes_of (body d1) ++ nodes_of (body d2)
    ∧ edges_of (body d) = edges_of (body d1) ++ edges_of (body d2).
Proof.
  destruct (built_nodes_edges (mkMetaData (l1 ++ l2)) name nodesep ranksep rankdir w)
    as (d & Hd & Hn & He).
  destruct (built_nodes_edges (mkMetaData l1) name nodesep ranksep rankdir w1)
    as (d1 & Hd1 & Hn1 & He1).
  destruct (built_nodes_edges (mkMetaData l2) name nodesep ranksep rankdir w2)
    as (d2 & Hd2 & Hn2 & He2).
  exists d, d1, d2. rewrite Hn, He, Hn1, He1, Hn2, He2.
  unfold fk_references; simpl.
  by rewrite map_app, flat_map_app.
Qed.

(** In a schema with distinct table names, the built graph has as many
    edges from table [s] to [t] as the columns of [s] have foreign keys that
    name [t]: none when there is no such key, several when several columns
    of [s] reference [t]. *)
Theorem edge_multiplicity metadata name nodesep ranksep rankdir w s table t :
  NoDup (table_names metadata) →
  (s, table) ∈ tables metadata →
  ∃ d, built metadata name nodesep ranksep rankdir w = Some d
       ∧ length (filter (fun e => e = (s, t)) (edges_of (body d)))
         = length (references_to t table).
Proof.
  intros Hnd Hin.
  destruct (built_nodes_edges metadata name nodesep ranksep rankdir w)
    as (d & Hd & _ & He).
  exists d. split; [done|]. rewrite He. unfold fk_references.
  rewrite (filter_fk_references _ _ _ table) by done.
  apply filter_references_own.
Qed.

Lemma edge_multiplicity_witness :
  ∃ d, built declared_metadata "compact" "0.25" "0.5" "TB" empty_world = Some d
       ∧ length (filter (fun e => e = ("like", "post")) (edges_of (body d)))
         = length (references_to "post" Like).
Proof.
  apply (edge_multiplicity declared_metadata "compact" "0.25" "0.5" "TB" empty_world
           "like" Like "post").
  - unfold table_names; simpl. compute_done.
  - unfold declared_metadata; simpl. do 4 right. left.
Defined.

(** Every edge of a built graph comes from a foreign key: its source is a
    declared table, hence a node of the graph, whatever the foreign keys
    name, and its target is the table named by a foreign key of one of the
    columns of the source. *)
Theorem edge_has_foreign_key metadata name nodesep ranksep rankdir w :
  ∃ d, built metadata name nodesep ranksep rankdir w = Some d
       ∧ ∀ s t, (s, t) ∈ edges_of (body d) →
           s ∈ map fst (nodes_of (body d))
           ∧ ∃ table col fk,
               (s, table) ∈ tables metadata
               ∧ col ∈ columns table
               ∧ fk ∈ foreign_keys col
               ∧ fk_table_name fk = t.
Proof.
  destruct (built_nodes_edges metadata name nodesep ranksep rankdir w)
    as (d & Hd & Hn & He).
  exists d. split; [done|].
  intros s t. rewrite Hn, He, node_names_of_tables.
  unfold fk_references, table_references. intros Hin.
  apply list_elem_of_In, in_flat_map in Hin as ([tname table] & Htab & Hin).
  apply in_flat_map in Hin as (col & Hcol & Hin).
  apply in_map_iff in Hin as (f & Hf & Hin).
  injection Hf as <- <-.
  split.
  - apply list_elem_of_In, in_map_iff. by exists (tname, table).
  - exists table, col, f. by rewrite !list_elem_of_In.
Qed.

Lemma edge_has_foreign_key_witness :
  ∃ d, built declared_metadata "compact" "0.25" "0.5" "TB" empty_world = Some d
       ∧ "media" ∈ map fst (nodes_of (body d))
       ∧ ∃ table col fk,
           ("media", table) ∈ tables declared_metadata
           ∧ col ∈ columns table
           ∧ fk ∈ foreign_keys col
           ∧ fk_table_name fk = "post".
Proof.
  destruct (edge_has_foreign_key declared_metadata "compact" "0.25" "0.5" "TB" empty_world)
    as (d & Hd & Hedges).
  exists d. split; [exact Hd|].
  apply Hedges.
  assert (edges_of (body d)
          = [("post", "user"); ("media", "post"); ("comment", "post");
             ("comment", "user"); ("comment", "comment"); ("like", "user");
             ("like", "post"); ("follow", "user"); ("follow", "user")]) as ->.
  { rewrite built_run in Hd. injection Hd as <-. reflexivity. }
  right. left.
Defined.

(** ** The marker in a whole node label *)

Lemma append_empty_r (s : string) : s +:+ "" = s.
Proof. induction s as [|c s IH]; [done|]. rewrite append_cons. by f_equal. Qed.

(** A pattern that does not contain [c] cannot match across a [c]. *)
Lemma prefix_before_separator (pat a b : string) c :
  pat ≠ "" →
  occurs_in c pat = false →
  String.prefix pat (a +:+ String c b) = String.prefix pat a.
Proof.
  revert a. induction pat as [|p pat IH]; intros a Hne Hc; [done|].
  simpl in Hc. destruct (Ascii.ascii_dec c p) as [|Hcp]; [done|].
  destruct a as [|x a].
  - rewrite append_nil, prefix_cons_cons, prefix_cons_nil.
    destruct (Ascii.ascii_dec p c); [by subst|done].
  - rewrite append_cons, !prefix_cons_cons.
    destruct (Ascii.ascii_dec p x); [|done].
    destruct pat as [|q pat]; [by rewrite !prefix_nil|].
    by apply IH.
Qed.

Lemma occurrences_before_separator (pat a b : string) c :
  pat ≠ "" →
  occurs_in c pat = false →
  occurrences pat (a +:+ String c b)
  = occurrences pat a + occurrences pat (String c b).
Proof.
  intros Hne Hc. induction a as [|x a IH].
  - rewrite append_nil. destruct pat; [done|]. by cbn [occurrences].
  - rewrite append_cons.
    change (occurrences pat (String x (a +:+ String c b)))
      with ((if String.prefix pat (String x (a +:+ String c b)) then 1 else 0)
            + occurrences pat (a +:+ String c b)).
    change (occurrences pat (String x a))
      with ((if String.prefix pat (String x a) then 1 else 0) + occurrences pat a).
    rewrite <- append_cons, prefix_before_separator, IH by done. lia.
Qed.

Lemma occurrences_before (pat a s b : string) c :
  s = String c b →
  pat ≠ "" →
  occurs_in c pat = false →
  occurrences pat (a +:+ s) = occurrences pat a + occurrences pat s.
Proof. intros ->. apply occurrences_before_separator. Qed.

Lemma occurrences_skip (pat b : string) c :
  String.prefix pat (String c b) = false →
  occurrences pat (String c b) = occurrences pat b.
Proof. intros H. cbn [occurrences]. by rewrite H. Qed.

Lemma marker_not_at c (b : string) :
  String c "" ≠ " " → String.prefix " (PK)" (String c b) = false.
Proof.
  intros Hc. rewrite prefix_cons_cons.
  destruct (Ascii.ascii_dec _ c); [by subst|done].
Qed.

Lemma occurrences_after_break (r : string) :
  occurrences " (PK)" ("\l" +:+ r) = occurrences " (PK)" r.
Proof.
  rewrite !append_cons, append_nil.
  by rewrite !occurrences_skip by (apply marker_not_at; discriminate).
Qed.

Lemma occurrences_name_marker name :
  occurrences " (PK)" name = 0 → occurrences " (PK)" (name +:+ " (PK)") = 1.
Proof.
  intros Hfree. pose proof (occurrences_marked name Hfree) as H.
  change (name +:+ " (PK)\l") with (name +:+ " (PK)" +:+ "\l") in H.
  rewrite <- string_app_assoc in H.
  rewrite (occurrences_before _ _ "\l" _ _ eq_refl) in H by done.
  change (occurrences " (PK)" "\l") with 0 in H. lia.
Qed.

Lemma concat_empty_cons (x : string) (xs : list string) :
  String.concat "" (x :: xs) = x +:+ String.concat "" xs.
Proof.
  destruct xs as [|y xs]; simpl; [by rewrite append_empty_r|done].
Qed.

Lemma occurrences_fields (cols : list Column) :
  Forall (fun col => occurrences " (PK)" (col_name col) = 0) cols →
  occurrences " (PK)"
    (String.concat ""
       (map (fun col => (if primary_key col then col_name col +:+ " (PK)"
                         else col_name col) +:+ "\l") cols) +:+ "}")
  = length (filter (fun col => primary_key col = true) cols).
Proof.
  induction 1 as [|col cols Hcol Hcols IH]; [reflexivity|].
  cbn [map]. rewrite concat_empty_cons, !string_app_assoc.
  rewrite (occurrences_before _ _ ("\l" +:+ _) _ _ eq_refl) by done.
  rewrite occurrences_after_break, IH, filter_cons.
  destruct (primary_key col).
  - rewrite occurrences_name_marker by done. by rewrite decide_True.
  - rewrite Hcol. by rewrite decide_False.
Qed.

(** The whole label of a table: when neither the table name nor any column
    name contains the text " (PK)", the text occurs in the label once per
    primary-key column, so a table with a composite key shows the marker
    once for each column of the key and a table without a key never shows
    it. *)
Theorem label_marker_count metadata name nodesep ranksep rankdir w tname table :
  (tname, table) ∈ tables metadata →
  occurrences " (PK)" tname = 0 →
  Forall (fun col => occurrences " (PK)" (col_name col) = 0) (columns table) →
  ∃ d label,
    built metadata name nodesep ranksep rankdir w = Some d
    ∧ (tname, label) ∈ nodes_of (body d)
    ∧ occurrences " (PK)" label
      = length (filter (fun col => primary_key col = true) (columns table)).
Proof.
  intros Htab Hname Hcols.
  destruct (built_nodes_edges metadata name nodesep ranksep rankdir w)
    as (d & Hd & Hn & _).
  exists d, (build_label tname table). split; [done|]. split.
  - rewrite Hn. apply list_elem_of_In, in_map_iff.
    exists (tname, table). split; [done|]. by apply list_elem_of_In.
  - unfold build_label. rewrite build_fields_map.
    rewrite append_cons, append_nil.
    rewrite occurrences_skip by (apply marker_not_at; discriminate).
    rewrite (occurrences_before _ _ ("|" +:+ _) _ _ eq_refl) by done.
    rewrite append_cons, append_nil.
    rewrite occurrences_skip by (apply marker_not_at; discriminate).
    rewrite Hname. by apply occurrences_fields.
Qed.

Lemma label_marker_count_witness :
  ∃ d label,
    built declared_metadata "compact" "0.25" "0.5" "TB" empty_world = Some d
    ∧ ("follow", label) ∈ nodes_of (body d)
    ∧ occurrences " (PK)" label = 1.
Proof.
  apply (label_marker_count declared_metadata "compact" "0.25" "0.5" "TB" empty_world
           "follow" Follow).
  - unfold declared_metadata; simpl. do 5 right. left.
  - reflexivity.
  - unfold Follow; simpl. repeat (apply Forall_cons; split; [reflexivity|]).
    apply Forall_nil. exact I.
Defined.

(** * [User.serialize] *)

Lemma value_of_inj {A} (f : A → Value) (o o' : option A) :
  (∀ a b, f a = f b → a = b) →
  (∀ a, f a ≠ VNone) →
  value_of f o = value_of f o' → o = o'.
Proof.
  intros Hinj Hne. destruct o as [a|], o' as [b|]; simpl; intros H; try done.
  - f_equal. by apply Hinj.
  - by apply Hne in H.
  - symmetry in H. by apply Hne in H.
Qed.

Lemma value_of_none {A} (f : A → Value) (o : option A) :
  (∀ a, f a ≠ VNone) → value_of f o = VNone ↔ o = None.
Proof.
  intros Hne. destruct o as [a|]; simpl; [|done].
  split; [by intros ?%Hne | done].
Qed.

(** [serialize] leaves out the password and nothing else, and writes an
    unset attribute as [None].  Its result has the nine keys below, in that
    order, so no [password] key.  Each of the nine values is [None] exactly
    when the attribute is unset, [created_at] included, and otherwise is the
    attribute, [created_at] in ISO format.  For an injective [isoformat],
    two users have the same serialization exactly when they agree on every
    attribute other than the password. *)
Theorem serialize_hides_only_password {datetime} (isoformat : datetime → string)
    (u u' : UserInstance datetime) :
  (∀ a b, isoformat a = isoformat b → a = b) →
  map fst (serialize isoformat u)
  = ["id"; "username"; "email"; "full_name"; "bio"; "website";
     "is_private"; "is_verified"; "created_at"]
  ∧ ("password" ∉ map fst (serialize isoformat u))
  ∧ (∃ v1 v2 v3 v4 v5 v6 v7 v8 v9,
       map snd (serialize isoformat u) = [v1; v2; v3; v4; v5; v6; v7; v8; v9]
       ∧ (v1 = VNone ↔ u_id u = None)
       ∧ (v2 = VNone ↔ u_username u = None)
       ∧ (v3 = VNone ↔ u_email u = None)
       ∧ (v4 = VNone ↔ u_full_name u = None)
       ∧ (v5 = VNone ↔ u_bio u = None)
       ∧ (v6 = VNone ↔ u_website u = None)
       ∧ (v7 = VNone ↔ u_is_private u = None)
       ∧ (v8 = VNone ↔ u_is_verified u = None)
       ∧ (v9 = VNone ↔ u_created_at u = None)
       ∧ (∀ n, u_id u = Some n → v1 = VInt n)
       ∧ (∀ x, u_username u = Some x → v2 = VStr x)
       ∧ (∀ x, u_email u = Some x → v3 = VStr x)
       ∧ (∀ x, u_full_name u = Some x → v4 = VStr x)
       ∧ (∀ x, u_bio u = Some x → v5 = VStr x)
       ∧ (∀ x, u_website u = Some x → v6 = VStr x)
       ∧ (∀ x, u_is_private u = Some x → v7 = VBool x)
       ∧ (∀ x, u_is_verified u = Some x → v8 = VBool x)
       ∧ (∀ t, u_created_at u = Some t → v9 = VStr (isoformat t)))
  ∧ (serialize isoformat u = serialize isoformat u' ↔ same_public u u').
Proof.
  intros Hiso. split; [reflexivity|]. split; [|split].
  - simpl. intros Hin. repeat (apply elem_of_cons in Hin as [?|Hin]; [done|]).
    by apply elem_of_nil in Hin.
  - do 9 eexists. split; [reflexivity|].
    split_and!; try (by apply value_of_none); by intros ? ->.
  - unfold serialize, same_public. split.
    + intros H. injection H as H1 H2 H3 H4 H5 H6 H7 H8 H9.
      repeat split;
        try (eapply value_of_inj; [| |eassumption]; [by intros ?? [=]|done]).
      destruct (u_created_at u) as [t|], (u_created_at u') as [t'|]; try done.
      injection H9 as H9. f_equal. by apply Hiso.
    + intros (-> & -> & -> & -> & -> & -> & -> & -> & ->). done.
Qed.

Lemma serialize_hides_only_password_witness :
  serialize id (mkUserInstance (Some 1%Z) (Some "ana") (Some "ana@example.org")
                  (Some "first secret") None None None (Some false) None
                  (Some "2024-05-01T10:00:00"))
  = serialize id (mkUserInstance (Some 1%Z) (Some "ana") (Some "ana@example.org")
                    (Some "second secret") None None None (Some false) None
                    (Some "2024-05-01T10:00:00")).
Proof.
  apply (serialize_hides_only_password id).
  - intros a b H. exact H.
  - repeat split.
Defined.

(** * The script as a list of calls *)

Lemma wp_render_seq F g filename d Q w :
  objs w !! g = Some d →
  let rendered := filename +:+ "." +:+ g_format d in
  filename ≠ rendered →
  let w1 := add_event (EvRender filename) w in
  let w2 := set_fs <[filename := DotSource d]> w1 in
  let w3 := add_event (EvRemove filename) (set_fs <[rendered := Image d]> w2) in
  (∀ e, F (AtRender filename StSave) = Some e → Q (Raise e) w1) →
  (F (AtRender filename StSave) = None →
   ∀ e, F (AtRender filename StRun) = Some e → Q (Raise e) w2) →
  (F (AtRender filename StSave) = None →
   F (AtRender filename StRun) = None →
   ∀ e, F (AtRender filename StCleanup) = Some e → Q (Raise e) w3) →
  (F (AtRender filename StSave) = None →
   F (AtRender filename StRun) = None →
   F (AtRender filename StCleanup) = None →
   Q (Ok rendered) (set_fs (delete filename) w3)) →
  wp (render F g filename) Q w.
Proof.
  intros Hg rendered Hne w1 w2 w3 Hsave Hrun Hclean Hok. unfold render.
  apply wp_bind, wp_modify, wp_bind.
  eapply wp_run; [unfold deref; simpl; by rewrite Hg|].
  apply wp_bind, wp_fault; [done|]. intros HF1.
  apply wp_bind, wp_modify, wp_bind, wp_fault; [by apply Hrun|]. intros HF2.
  apply wp_bind, wp_modify, wp_bind, wp_os_remove; fold rendered w1 w2 w3.
  - by apply Hclean.
  - intros _. simpl. rewrite lookup_insert_ne by done.
    by rewrite lookup_insert_eq.
  - intros HF3 _. apply wp_ret. by apply Hok.
Qed.

Ltac use_faults :=
  repeat match goal with
         | H : ?F ?p = _ |- context [?F ?p] => rewrite H
         end.

Ltac steps_leaf :=
  intros;
  cbn [run_steps steps_after_reset render_steps app st_event st_point st_effect
       log_event apply_effect fs trace objs holding set_fs set_objs add_event];
  use_faults;
  rewrite ?sqlite_path_tmp_db;
  reflexivity.

(** Lines 147-156 do to the files and the log what their list of calls
    does, and end the same way. *)
Lemma wp_steps_after_reset F metadata w :
  wp (script_after_reset F metadata)
     (fun r w' =>
        (r, fs w', trace w') = run_steps F (steps_after_reset metadata) (fs w) (trace w))
     w.
Proof.
  unfold script_after_reset.
  apply wp_bind, wp_create_engine; [steps_leaf|]. intros HF1.
  apply wp_bind, wp_create_all; cbn [url]; [steps_leaf|]. intros HF2.
  apply wp_bind, wp_build_graph. intros g1 Hg1.
  apply wp_bind.
  eapply wp_render_seq;
    [by fs_simpl | cbn; discriminate | steps_leaf | steps_leaf | steps_leaf |].
  intros HF3 HF4 HF5.
  apply wp_bind, wp_build_graph. intros g2 Hg2.
  apply wp_bind.
  eapply wp_render_seq;
    [by fs_simpl | cbn; discriminate | steps_leaf | steps_leaf | steps_leaf |].
  intros HF6 HF7 HF8.
  apply wp_bind, wp_build_graph. intros g3 Hg3.
  apply wp_bind.
  eapply wp_render_seq;
    [by fs_simpl | cbn; discriminate | steps_leaf | steps_leaf | steps_leaf |].
  intros HF9 HF10 HF11.
  apply wp_os_replace.
  - steps_leaf.
  - intros _. fs_simpl. discriminate.
  - intros c HF12 Hc.
    cbn [run_steps steps_after_reset render_steps app st_event st_point st_effect
         log_event apply_effect fs trace objs holding set_fs set_objs add_event] in *.
    use_faults. rewrite ?sqlite_path_tmp_db in *.
    unfold tmp_db. by rewrite Hc.
Qed.

Lemma wp_observed {A} (m : M A) w (x : Res A * gmap string Content * list Event) :
  wp m (fun r w' => (r, fs w', trace w') = x) w → observed (m w) = x.
Proof. unfold wp, observed. done. Qed.

Lemma script_after_reset_steps F metadata w :
  observed (script_after_reset F metadata w)
  = run_steps F (steps_after_reset metadata) (fs w) (trace w).
Proof. apply wp_observed, wp_steps_after_reset. Qed.

(** Lines 144-156 do to the files and the log what their list of calls
    does, and end the same way. *)
Lemma script_body_steps F metadata w :
  observed (script_body F metadata w)
  = run_steps F (script_steps metadata (scratch_present w)) (fs w) (trace w).
Proof.
  apply wp_observed. rewrite script_body_split. unfold script_steps, scratch_present.
  apply wp_bind, wp_os_path_exists.
  destruct (fs w !! tmp_db) as [c|] eqn:Hc; cbn [bool_decide decide_rel is_Some_dec when_].
  - apply wp_bind, wp_os_remove.
    + intros e He. simpl. by rewrite He.
    + by rewrite Hc.
    + intros HF _. simpl. rewrite HF.
      eapply wp_mono; [apply wp_steps_after_reset|].
      intros r w' ->. done.
  - apply wp_bind, wp_ret. apply wp_steps_after_reset.
Qed.

Lemma script_cleanup_steps F w :
  observed (script_cleanup F w)
  = (Ok tt, (run_cleanup F (fs w) (trace w)).1, (run_cleanup F (fs w) (trace w)).2).
Proof.
  apply wp_observed. unfold script_cleanup, run_cleanup.
  apply wp_try_except, wp_bind, wp_os_path_exists.
  destruct (fs w !! tmp_db) as [c|] eqn:Hc; cbn [bool_decide decide_rel is_Some_dec when_].
  - apply wp_os_remove.
    + intros e He. apply wp_ret. by rewrite He.
    + by rewrite Hc.
    + intros HF _. by rewrite HF.
  - by apply wp_ret.
Qed.

(** The whole script against its list of calls followed by the cleanup. *)
Lemma main_steps F metadata w :
  observed (main F metadata w)
  = let '(r, m, t) := run_steps F (script_steps metadata (scratch_present w))
                        (fs w) (trace w) in
    (r, (run_cleanup F m t).1, (run_cleanup F m t).2).
Proof.
  rewrite <- script_body_steps.
  unfold main, try_finally, observed.
  destruct (script_body F metadata w) as [r w1]. simpl.
  pose proof (script_cleanup_steps F w1) as Hc. unfold observed in Hc.
  destruct (script_cleanup F w1) as [[u|e] w2]; simpl in *.
  - by injection Hc as _ -> ->.
  - discriminate.
Qed.

(** ** Lists of calls in general *)

Lemma run_steps_outcome F steps m t :
  (run_steps F steps m t).1.1
  = match first_fault F (map st_point steps) with
    | Some (_, e) => Raise e
    | None => Ok tt
    end.
Proof.
  revert m t. induction steps as [|s steps IH]; intros m t; simpl; [done|].
  destruct (F (st_point s)); [done|]. apply IH.
Qed.

Lemma run_steps_frame F steps m t p :
  p ∉ flat_map (fun s => effect_paths (st_effect s)) steps →
  (run_steps F steps m t).1.2 !! p = m !! p.
Proof.
  revert m t. induction steps as [|s steps IH]; intros m t Hp; simpl; [done|].
  simpl in Hp. apply not_elem_of_app in Hp as [Hs Hp].
  destruct (F (st_point s)); [done|].
  rewrite IH by done.
  destruct (st_effect s) as [|path c|path|src dst]; simpl in *.
  - done.
  - apply lookup_insert_ne. set_solver.
  - apply lookup_delete_ne. set_solver.
  - destruct (m !! src); [|done].
    rewrite lookup_insert_ne, lookup_delete_ne by set_solver. done.
Qed.


Lemma first_fault_none F points :
  first_fault F points = None → Forall (fun p => F p = None) points.
Proof.
  induction points as [|p points IH]; simpl; [done|].
  destruct (F p) eqn:Hp; [done|]. intros H. apply Forall_cons. auto.
Qed.

Lemma script_steps_points metadata present :
  map st_point (script_steps metadata present) = script_points present.
Proof. by destruct present. Qed.


Lemma script_steps_paths metadata present p :
  p ∉ script_paths →
  p ∉ flat_map (fun s => effect_paths (st_effect s)) (script_steps metadata present).
Proof.
  intros Hp Hin. apply Hp. unfold script_paths.
  destruct present; simpl in Hin;
    repeat (apply elem_of_cons in Hin as [->|Hin]; [compute_done|]);
    by apply elem_of_nil in Hin.
Qed.

Lemma main_steps_split F metadata w r m t :
  run_steps F (script_steps metadata (scratch_present w)) (fs w) (trace w) = (r, m, t) →
  (main F metadata w).1 = r
  ∧ fs (main F metadata w).2 = (run_cleanup F m t).1
  ∧ trace (main F metadata w).2 = (run_cleanup F m t).2.
Proof.
  intros Hrun. pose proof (main_steps F metadata w) as H.
  rewrite Hrun in H. unfold observed in H. by injection H as -> -> ->.
Qed.

Lemma run_cleanup_frame F m t p :
  p ≠ tmp_db → (run_cleanup F m t).1 !! p = m !! p.
Proof.
  intros Hp. unfold run_cleanup.
  destruct (m !! tmp_db); [|done]. simpl.
  destruct (F AtRemoveFinal); [done|]. by apply lookup_delete_ne.
Qed.

(** * How the script ends, what it touches, what it logs *)

(** The script ends as the first call of lines 144-156 that the
    environment makes fail dictates: it raises the exception of that call,
    and it returns when there is none.  The removal of a stale scratch
    database counts only when the database exists at the start.  A failure
    of the final removal plays no part, and the script raises nothing of
    its own: no missing-file error from [os.remove] or [os.replace]. *)
Theorem main_outcome F metadata w :
  (main F metadata w).1
  = match first_fault F (script_points (scratch_present w)) with
    | Some (_, e) => Raise e
    | None => Ok tt
    end.
Proof.
  destruct (run_steps F (script_steps metadata (scratch_present w)) (fs w) (trace w))
    as [[r m] t] eqn:Hrun.
  destruct (main_steps_split _ _ _ _ _ _ Hrun) as (-> & _ & _).
  pose proof (run_steps_outcome F (script_steps metadata (scratch_present w))
                (fs w) (trace w)) as H.
  by rewrite Hrun, script_steps_points in H.
Qed.

(** Whatever the environment does and however the script ends, a file
    whose path is not one of the eight the script uses is after the run
    what it was before: the script creates, changes and removes nothing
    else. *)
Theorem main_frame F metadata w p :
  p ∉ script_paths →
  fs (main F metadata w).2 !! p = fs w !! p.
Proof.
  intros Hp.
  destruct (run_steps F (script_steps metadata (scratch_present w)) (fs w) (trace w))
    as [[r m] t] eqn:Hrun.
  destruct (main_steps_split _ _ _ _ _ _ Hrun) as (_ & -> & _).
  rewrite run_cleanup_frame.
  - pose proof (run_steps_frame F (script_steps metadata (scratch_present w))
                  (fs w) (trace w) p (script_steps_paths _ _ _ Hp)) as H.
    by rewrite Hrun in H.
  - intros ->. apply Hp. unfold script_paths. left.
Qed.

Lemma main_frame_witness :
  fs (main symmetric_render_fails declared_metadata
        (mkWorld ∅ {["notes.txt" := Blob "keep"]} [])).2 !! "notes.txt"
  = Some (Blob "keep").
Proof.
  rewrite (main_frame symmetric_render_fails declared_metadata _ "notes.txt").
  - reflexivity.
  - unfold script_paths, tmp_db. compute_done.
Defined.







Lemma run_steps_all_ok F steps m t :
  Forall (fun p => F p = None) (map st_point steps) →
  run_steps F steps m t
  = (Ok tt,
     fold_left (fun m s => apply_effect (st_effect s) m) steps m,
     fold_left (fun t s => log_event (st_event s) t) steps t).
Proof.
  revert m t. induction steps as [|s steps IH]; intros m t Hall; simpl; [done|].
  simpl in Hall. apply Forall_cons in Hall as [Hs Hall].
  rewrite Hs. by apply IH.
Qed.

Ltac steps_simpl :=
  cbn [script_steps steps_after_reset render_steps app fold_left
       st_event st_point st_effect log_event apply_effect g_format graph_value].

(** The files and the log when every call of lines 144-156 goes through:
    [m] is the files as the cleanup finds them. *)
Lemma success_files F metadata w :
  (main F metadata w).1 = Ok tt →
  ∃ m,
    fs (main F metadata w).2
    = match F AtRemoveFinal with Some _ => m | None => delete tmp_db m end
    ∧ m !! tmp_db = Some (SqliteDb (table_names metadata))
    ∧ m !! "diagram_compact" = None
    ∧ m !! "diagram_spaced" = None
    ∧ m !! "diagram_symmetric" = None
    ∧ m !! "diagram_compact.png"
      = Some (Image (graph_value metadata "compact" "0.25" "0.5" "TB"))
    ∧ m !! "diagram_spaced.png" = None
    ∧ m !! "diagram_symmetric.png"
      = Some (Image (graph_value metadata "symmetric" "1.2" "1.0" "LR"))
    ∧ m !! "diagram.png"
      = Some (Image (graph_value metadata "spaced" "1.0" "1.2" "TB"))
    ∧ trace (main F metadata w).2
      = trace w ++ script_events (scratch_present w) ++ [EvRemove tmp_db].
Proof.
  intros Hok. rewrite main_outcome in Hok.
  destruct (first_fault F (script_points (scratch_present w))) as [[p e]|] eqn:Hff;
    [done|].
  apply first_fault_none in Hff. rewrite <- (script_steps_points metadata) in Hff.
  pose proof (run_steps_all_ok F _ (fs w) (trace w) Hff) as Hrun.
  destruct (main_steps_split _ _ _ _ _ _ Hrun) as (_ & Hfs & Htr).
  rewrite Hfs, Htr. clear Hfs Htr Hrun Hff Hok.
  set (m := fold_left _ _ (fs w)).
  assert (m !! tmp_db = Some (SqliteDb (table_names metadata))
          ∧ m !! "diagram_compact" = None
          ∧ m !! "diagram_spaced" = None
          ∧ m !! "diagram_symmetric" = None
          ∧ m !! "diagram_compact.png"
            = Some (Image (graph_value metadata "compact" "0.25" "0.5" "TB"))
          ∧ m !! "diagram_spaced.png" = None
          ∧ m !! "diagram_symmetric.png"
            = Some (Image (graph_value metadata "symmetric" "1.2" "1.0" "LR"))
          ∧ m !! "diagram.png"
            = Some (Image (graph_value metadata "spaced" "1.0" "1.2" "TB")))
    as Hm.
  { subst m. unfold tmp_db.
    destruct (scratch_present w); steps_simpl; unfold tmp_db;
      (match goal with
       | |- context [match ?x !! "diagram_spaced.png" with _ => _ end] =>
           assert (x !! "diagram_spaced.png"
                   = Some (Image (graph_value metadata "spaced" "1.0" "1.2" "TB")))
             as -> by (by fs_simpl)
       end);
      repeat split; by fs_simpl. }
  exists m. split; [|split_and!; try apply Hm].
  - unfold run_cleanup. destruct Hm as (-> & _). done.
  - unfold run_cleanup. destruct Hm as (-> & _). simpl.
    subst m. rewrite app_assoc. f_equal.
    destruct (scratch_present w); steps_simpl; unfold script_events;
      rewrite <- !app_assoc; reflexivity.
Qed.

(** A run that returns leaves no DOT source behind: the three files
    [render] wrote its sources to are gone.  The scratch database is gone
    too, unless the environment made its final removal fail, in which case
    it is still there, holding the declared tables, and the script has
    returned all the same. *)
Theorem successful_run_leaves_no_source F metadata w w' :
  main F metadata w = (Ok tt, w') →
  fs w' !! "diagram_compact" = None
  ∧ fs w' !! "diagram_spaced" = None
  ∧ fs w' !! "diagram_symmetric" = None
  ∧ fs w' !! tmp_db
    = match F AtRemoveFinal with
      | Some _ => Some (SqliteDb (table_names metadata))
      | None => None
      end.
Proof.
  intros Hrun.
  destruct (success_files F metadata w) as (m & Hfs & Hdb & Hc & Hs & Hy & _);
    [by rewrite Hrun|].
  rewrite Hrun in Hfs. simpl in Hfs. rewrite Hfs.
  destruct (F AtRemoveFinal).
  - done.
  - unfold tmp_db. rewrite lookup_delete_eq, !lookup_delete_ne by discriminate. done.
Qed.

Lemma successful_run_leaves_no_source_witness :
  fs (main no_faults declared_metadata empty_world).2 !! "diagram_compact" = None
  ∧ fs (main no_faults declared_metadata empty_world).2 !! "diagram_spaced" = None
  ∧ fs (main no_faults declared_metadata empty_world).2 !! "diagram_symmetric" = None
  ∧ fs (main no_faults declared_metadata empty_world).2 !! tmp_db = None.
Proof.
  apply (successful_run_leaves_no_source no_faults declared_metadata empty_world).
  vm_compute. reflexivity.
Defined.

(** The log of a run that returns: the removal of the stale scratch
    database when there was one, then [create_all], then for each of
    compact, spaced and symmetric, in that order, the render and the removal
    of its source, then the one [os.replace], then the removal of the
    scratch database by the cleanup. *)
Theorem successful_run_log F metadata w w' :
  main F metadata w = (Ok tt, w') →
  trace w' = trace w ++ script_events (scratch_present w) ++ [EvRemove tmp_db].
Proof.
  intros Hrun.
  destruct (success_files F metadata w) as (m & _ & _ & _ & _ & _ & _ & _ & _ & _ & Htr);
    [by rewrite Hrun|].
  by rewrite Hrun in Htr.
Qed.

Lemma successful_run_log_witness :
  trace (main no_faults declared_metadata empty_world).2
  = [EvCreateAll tmp_db;
     EvRender "diagram_compact"; EvRemove "diagram_compact";
     EvRender "diagram_spaced"; EvRemove "diagram_spaced";
     EvRender "diagram_symmetric"; EvRemove "diagram_symmetric";
     EvReplace "diagram_spaced.png" "diagram.png";
     EvRemove tmp_db].
Proof.
  apply (successful_run_log no_faults declared_metadata empty_world).
  vm_compute. reflexivity.
Defined.

Lemma first_fault_no_faults points : first_fault no_faults points = None.
Proof. induction points as [|p points IH]; simpl; done. Qed.

(** Running the script again changes nothing: when the environment makes
    no call fail, a second run right after the first returns too and leaves
    exactly the files the first run left, whatever was there before the
    first run; images of an earlier run are overwritten, not added to.  The
    scratch database does not exist between the runs. *)
Theorem rerun_same_files metadata w :
  ∃ w1 w2,
    main no_faults metadata w = (Ok tt, w1)
    ∧ main no_faults metadata w1 = (Ok tt, w2)
    ∧ fs w2 = fs w1
    ∧ scratch_present w1 = false.
Proof.
  assert (∀ w0, (main no_faults metadata w0).1 = Ok tt) as Hok.
  { intros w0. by rewrite main_outcome, first_fault_no_faults. }
  destruct (main no_faults metadata w) as [r1 w1] eqn:H1.
  destruct (main no_faults metadata w1) as [r2 w2] eqn:H2.
  pose proof (Hok w) as Hr1. rewrite H1 in Hr1. simpl in Hr1. subst r1.
  pose proof (Hok w1) as Hr2. rewrite H2 in Hr2. simpl in Hr2. subst r2.
  destruct (success_files no_faults metadata w (Hok w))
    as (m1 & Hfs1 & Ha1 & Hb1 & Hc1 & Hd1 & He1 & Hf1 & Hg1 & Hh1 & _).
  destruct (success_files no_faults metadata w1 (Hok w1))
    as (m2 & Hfs2 & Ha2 & Hb2 & Hc2 & Hd2 & He2 & Hf2 & Hg2 & Hh2 & _).
  rewrite H1 in Hfs1. rewrite H2 in Hfs2. simpl in Hfs1, Hfs2.
  exists w1, w2. split; [done|]. split; [done|]. split.
  - apply map_eq. intros p.
    destruct (decide (p ∈ script_paths)) as [Hin|Hout].
    + rewrite Hfs1, Hfs2. unfold script_paths, tmp_db in *.
      repeat (apply elem_of_cons in Hin as [->|Hin];
              [rewrite ?lookup_delete_eq, ?lookup_delete_ne by discriminate;
               congruence|]).
      by apply elem_of_nil in Hin.
    + pose proof (main_frame no_faults metadata w1 p Hout) as H.
      by rewrite H2 in H.
  - unfold scratch_present. rewrite Hfs1, lookup_delete_eq. done.
Qed.

(** ** Failures *)

Ltac walk H :=
  repeat (simpl in H;
          match type of H with
          | context [match ?F ?p with _ => _ end] =>
              destruct (F p) eqn:?; [try congruence|]
          end).

(** When the first call to fail is a stage of the symmetric render or the
    final [os.replace], the script raises the exception of that call and
    the images written before it are kept: [diagram_compact.png] and
    [diagram_spaced.png] hold the compact and the spaced rendering, and
    [diagram.png] is what it was before the run. *)
Theorem late_failure_keeps_images F metadata w p e :
  first_fault F (script_points (scratch_present w)) = Some (p, e) →
  p ∈ [AtRender "diagram_symmetric" StSave; AtRender "diagram_symmetric" StRun;
       AtRender "diagram_symmetric" StCleanup; AtReplace] →
  ∃ d1 d2,
    built metadata "compact" "0.25" "0.5" "TB" w = Some d1
    ∧ built metadata "spaced" "1.0" "1.2" "TB" w = Some d2
    ∧ (main F metadata w).1 = Raise e
    ∧ fs (main F metadata w).2 !! "diagram_compact.png" = Some (Image d1)
    ∧ fs (main F metadata w).2 !! "diagram_spaced.png" = Some (Image d2)
    ∧ fs (main F metadata w).2 !! "diagram.png" = fs w !! "diagram.png".
Proof.
  intros Hff Hp.
  do 2 eexists. do 2 (split; [apply built_run|]).
  split; [by rewrite main_outcome, Hff|].
  pose proof (main_steps_split F metadata w) as Hsplit.
  unfold script_points in Hff.
  destruct (scratch_present w);
    repeat (apply elem_of_cons in Hp as [->|Hp]);
    try (by apply elem_of_nil in Hp);
    walk Hff;
    (edestruct Hsplit as (_ & -> & _);
     [ cbn [script_steps steps_after_reset render_steps app run_steps
            st_event st_point st_effect log_event apply_effect];
       use_faults; reflexivity
     | rewrite !run_cleanup_frame by (unfold tmp_db; discriminate);
       unfold tmp_db; repeat split; by fs_simpl ]).
Qed.

Lemma late_failure_keeps_images_witness :
  ∃ d1 d2,
    built declared_metadata "compact" "0.25" "0.5" "TB" empty_world = Some d1
    ∧ built declared_metadata "spaced" "1.0" "1.2" "TB" empty_world = Some d2
    ∧ (main symmetric_render_fails declared_metadata empty_world).1
      = Raise CalledProcessError
    ∧ fs (main symmetric_render_fails declared_metadata empty_world).2
        !! "diagram_compact.png" = Some (Image d1)
    ∧ fs (main symmetric_render_fails declared_metadata empty_world).2
        !! "diagram_spaced.png" = Some (Image d2)
    ∧ fs (main symmetric_render_fails declared_metadata empty_world).2
        !! "diagram.png" = None.
Proof.
  apply (late_failure_keeps_images symmetric_render_fails declared_metadata empty_world
           (AtRender "diagram_symmetric" StRun) CalledProcessError).
  - reflexivity.
  - right. left.
Defined.

(** When the scratch database exists at the start and its removal on line
    146 fails, the script raises that exception without creating an engine
    or rendering anything: the log gains the failed removal and the
    cleanup's own removal and nothing else, and no file other than the
    scratch database changes.  The scratch database itself is removed by
    the cleanup unless that removal fails as well. *)
Theorem stale_removal_failure F metadata w e :
  scratch_present w = true →
  F AtRemoveStale = Some e →
  (main F metadata w).1 = Raise e
  ∧ trace (main F metadata w).2 = trace w ++ [EvRemove tmp_db; EvRemove tmp_db]
  ∧ (∀ p, p ≠ tmp_db → fs (main F metadata w).2 !! p = fs w !! p)
  ∧ fs (main F metadata w).2 !! tmp_db
    = match F AtRemoveFinal with
      | Some _ => fs w !! tmp_db
      | None => None
      end.
Proof.
  intros Hpresent He.
  pose proof (main_steps_split F metadata w) as Hsplit.
  rewrite Hpresent in Hsplit.
  edestruct Hsplit as (-> & -> & ->); [simpl; rewrite He; reflexivity|].
  unfold scratch_present in Hpresent. apply bool_decide_eq_true in Hpresent as [c Hc].
  unfold run_cleanup. rewrite Hc. simpl.
  split; [done|]. split; [by rewrite <- app_assoc|]. split.
  - intros p Hp. destruct (F AtRemoveFinal); [done|]. by apply lookup_delete_ne.
  - destruct (F AtRemoveFinal); [done|]. apply lookup_delete_eq.
Qed.

Lemma stale_removal_failure_witness :
  (main (fun p => match p with AtRemoveStale => Some OSError | _ => None end)
        declared_metadata (mkWorld ∅ {[tmp_db := Blob "old"]} [])).1
  = Raise OSError
  ∧ trace (main (fun p => match p with AtRemoveStale => Some OSError | _ => None end)
             declared_metadata (mkWorld ∅ {[tmp_db := Blob "old"]} [])).2
    = [EvRemove tmp_db; EvRemove tmp_db].
Proof.
  destruct (stale_removal_failure
              (fun p => match p with AtRemoveStale => Some OSError | _ => None end)
              declared_metadata (mkWorld ∅ {[tmp_db := Blob "old"]} []) OSError)
    as (H1 & H2 & _).
  - vm_compute. reflexivity.
  - reflexivity.
  - split; [exact H1 | exact H2].
Defined.
